(** * go-opensearch-curator: the OpenSearch administration client

    A shallow embedding of [opensearchmanager/curator.go] and the theorems
    that relate it to its specification.

    Conventions.
    - A Go [string] is a [string] (a byte sequence); a Go [error] is the
      text of its [Error()] method, and [option error] is a Go [error]
      result ([None] is [nil]).  [fmt.Errorf] with [%s] or [%w] is string
      concatenation.
    - [int64] is a [Z] in the int64 range, [uint64] a [Z] with the
      wrap-around written out.
    - A [map[string]interface{}] is a [gmap string value]; a nil map and an
      empty map are both the empty [gmap].
    - The HTTP exchange is a state transformer over a [World]: the wall
      clock and the log of the requests handed to [doRequest]. *)

From Stdlib Require Import ZArith String Ascii List Lia Bool.
From stdpp Require Import base tactics option list strings gmap fin_maps sorting pretty.

Local Open Scope string_scope.
Local Open Scope Z_scope.

(** ** Errors and formatting *)

Definition error := string.

(** [strings.Join(elems, sep)]. *)
Fixpoint Join (elems : list string) (sep : string) : string :=
  match elems with
  | [] => ""
  | [x] => x
  | x :: rest => x +:+ sep +:+ Join rest sep
  end.

(** [strings.HasPrefix(s, prefix)]. *)
Definition HasPrefix (s prefix : string) : bool := String.prefix prefix s.

(** The verb [%d] of [fmt] on an [int]. *)
Definition fmt_d (n : Z) : string := pretty n.

(** ** [strconv.ParseInt(s, 10, 64)]

    The two library functions as Go's [strconv/atoi.go] has them, at base
    10 and bit size 64.  The error value is reduced to its kind. *)

Module strconv.

Inductive NumError := ErrSyntax | ErrRange.

Definition maxUint64 : Z := 2 ^ 64 - 1.
Definition wrap64 (n : Z) : Z := n mod 2 ^ 64.

(** [lower(c)] is [c | ('x' - 'X')]. *)
Definition lower (c : Z) : Z := Z.lor c 32.

Section ParseUint.
Let base : Z := 10.
(** [cutoff] is the smallest number such that [cutoff*base > maxUint64]. *)
Let cutoff : Z := maxUint64 / 10 + 1.
Let maxVal : Z := wrap64 (Z.shiftl 1 64 - 1).

(** The digit loop of [ParseUint]: [n] is the value read so far. *)
Fixpoint ParseUint_loop (cs : list ascii) (n : Z) : Z * option NumError :=
  match cs with
  | [] => (n, None)
  | ch :: cs' =>
      let c := Z.of_N (N_of_ascii ch) in
      let digit : option Z :=
        if (48 <=? c) && (c <=? 57) then Some (c - 48)
        else if (97 <=? lower c) && (lower c <=? 122) then Some (lower c - 97 + 10)
        else None in
      match digit with
      | None => (0, Some ErrSyntax)
      | Some d =>
          if base <=? d then (0, Some ErrSyntax)
          else if cutoff <=? n then (maxVal, Some ErrRange)
          else
            let n' := wrap64 (n * base) in
            let n1 := wrap64 (n' + d) in
            if (n1 <? n') || (maxVal <? n1) then (maxVal, Some ErrRange)
            else ParseUint_loop cs' n1
      end
  end.

Definition ParseUint (s : string) : Z * option NumError :=
  match s with
  | "" => (0, Some ErrSyntax)
  | _ => ParseUint_loop (list_ascii_of_string s) 0
  end.
End ParseUint.

Definition ParseInt (s : string) : Z * option NumError :=
  match s with
  | "" => (0, Some ErrSyntax)
  | String c0 rest =>
      (* Pick off leading sign. *)
      let '(neg, s1) :=
        if Ascii.eqb c0 "+" then (false, rest)
        else if Ascii.eqb c0 "-" then (true, rest)
        else (false, s) in
      (* Convert unsigned and check range. *)
      let '(un, err) := ParseUint s1 in
      match err with
      | Some ErrSyntax => (0, Some ErrSyntax)
      | _ =>
          let cutoff := Z.shiftl 1 63 in
          if negb neg && (cutoff <=? un) then (cutoff - 1, Some ErrRange)
          else if neg && (cutoff <? un) then (- cutoff, Some ErrRange)
          else (if neg then - un else un, None)
      end
  end.

End strconv.

(** ** Dynamic values and their JSON encoding *)

#[local] Set Warnings "-register-all".

(** What an [interface{}] holds.  [VMap] lists the entries of a nested map in
    key order, the order in which [encoding/json] writes them;
    [VUnsupported] stands for a value [json.Marshal] rejects (a func, a
    chan), with the printed name of its Go type. *)
Inductive value :=
  | VNil
  | VBool (b : bool)
  | VInt (n : Z)
  | VString (s : string)
  | VSlice (elems : list value)
  | VMap (entries : list (string * value))
  | VUnsupported (goType : string).

(** The error of [json.Marshal] on one value, [None] when it encodes. *)
Fixpoint marshalErr (v : value) : option error :=
  match v with
  | VSlice elems =>
      (fix each (l : list value) : option error :=
         match l with
         | [] => None
         | x :: l' => match marshalErr x with Some e => Some e | None => each l' end
         end) elems
  | VMap entries =>
      (fix each (l : list (string * value)) : option error :=
         match l with
         | [] => None
         | kv :: l' =>
             match marshalErr (let (_, x) := kv in x) with
             | Some e => Some e
             | None => each l'
             end
         end) entries
  | VUnsupported goType => Some ("json: unsupported type: " +:+ goType)
  | _ => None
  end.

(** The first error in a sequence of encodings. *)
Fixpoint firstErr (l : list (option error)) : option error :=
  match l with
  | [] => None
  | Some e :: _ => Some e
  | None :: l' => firstErr l'
  end.

Definition key_le (a b : string * value) : Prop := String.leb a.1 b.1.

(** [encoding/json] writes a map with its keys sorted. *)
Definition sortedEntries (m : gmap string value) : list (string * value) :=
  merge_sort key_le (map_to_list m).

Definition marshalMapErr (m : gmap string value) : option error :=
  firstErr ((λ kv, marshalErr kv.2) <$> sortedEntries m).

(** [AliasAction]: both fields carry [omitempty]. *)
Record AliasAction := {
  Add : gmap string value;
  Remove : gmap string value;
}.

(** The four request documents the client composes. *)
Inductive ReqBody :=
  | BodyActions (actions : list AliasAction)
      (* map{"actions": actions} *)
  | BodyConditions (conditions : gmap string value)
      (* map{"conditions": conditions} *)
  | BodyReindex (source dest : string) (query : gmap string value)
      (* map{"source": map{"index": source, "query": query},
             "dest": map{"index": dest}} *)
  | BodySettings (settings : gmap string value).
      (* map{"settings": settings} *)

(** [json.Marshal(body)]: the encoded document is identified with the
    document it encodes. *)
Definition json_Marshal (body : ReqBody) : error + ReqBody :=
  let err :=
    match body with
    | BodyActions actions =>
        firstErr ((λ a, firstErr [marshalMapErr (Add a); marshalMapErr (Remove a)]) <$> actions)
    | BodyConditions conditions => marshalMapErr conditions
    | BodyReindex _ _ query => marshalMapErr query
    | BodySettings settings => marshalMapErr settings
    end in
  match err with
  | Some e => inl e
  | None => inr body
  end.

(** ** [mergeSettings] *)

Definition mergeSettings (base override : gmap string value) : gmap string value :=
  let result : gmap string value := ∅ in
  let result := map_fold (λ k v result, <[k:=v]> result) result base in
  let result := map_fold (λ k v result, <[k:=v]> result) result override in
  result.

(** [m[k]] on a [map[string]interface{}]: the nil interface when absent. *)
Definition index (m : gmap string value) (k : string) : value :=
  default VNil (m !! k).

(** ** Time *)

(** An instant, in nanoseconds since the zero [time.Time]
    (January 1, year 1, 00:00:00 UTC). *)
Definition Time := Z.
Definition zeroTime : Time := 0.
Definition Before (t u : Time) : bool := t <? u.

(** Negation on Go's 64-bit [int]. *)
Definition int_neg (n : Z) : Z := if n =? - 2 ^ 63 then n else - n.

(** ** Data *)

(** The record [ListIndices] decodes from the catalog. *)
Module Cat.
Record record := {
  Index : string;       (* json:"index" *)
  Status : string;      (* json:"status" *)
  DocsCount : string;   (* json:"docs.count" *)
  StoreSize : string;   (* json:"store.size" *)
  CreateTime : string;  (* json:"creation.date.string" *)
}.
End Cat.

Record IndexInfo := {
  Name : string;
  Status : string;
  DocsCount : Z;
  StoreSize : string;
  CreateTime : Time;
}.

Record Client := {
  Endpoint : string;
  Username : string;
  Password : string;
}.

Record Request := {
  Method : string;
  URL : string;
  BasicAuth : string * string;
  ContentType : string;
  Payload : option ReqBody;
}.

Record Response := {
  StatusCode : Z;
  Body : string;
}.

(** ** The runtime the client runs against *)

(** The library functions the client calls and does not define. *)
Record GoLib := {
  (** [json.NewDecoder(body).Decode(&indices)] on the catalog records. *)
  json_Decode : string → error + list Cat.record;
  (** [time.Parse(time.RFC3339, s)]. *)
  time_Parse : string → Time * option error;
  (** ... which returns the zero [Time] with every error. *)
  time_Parse_zero : ∀ s, is_Some (time_Parse s).2 → (time_Parse s).1 = zeroTime;
  (** [filepath.Match(pattern, name)]. *)
  filepath_Match : string → string → bool * option error;
  (** [t.AddDate(0, 0, days)]. *)
  AddDate_days : Time → Z → Time;
}.

(** The wall clock and the requests handed to [doRequest] so far. *)
Record World := {
  now : Time;
  log : list Request;
}.

(** One attempt to exchange a request: [http.NewRequestWithContext] followed
    by [c.HTTPClient.Do(req)].  It yields the response, or the error of
    either call (a malformed URL, a refused connection, a cancelled context),
    and the clock when it returns; it may depend on everything sent before. *)
Definition Transport := World → Request → (error + Response) * Time.

(** State passing over the [World]. *)
Definition M (A : Type) : Type := World → A * World.

#[global] Instance M_ret : MRet M := λ A a w, (a, w).
#[global] Instance M_bind : MBind M := λ A B k m w, let '(a, w') := m w in k a w'.

Definition time_Now : M Time := λ w, (now w, w).

(** ** The client *)

Section Curator.

Variable lib : GoLib.
Variable net : Transport.

(** The request [doRequest] builds: [c.Endpoint+path], basic authentication
    and the JSON content type. *)
Definition newRequest (c : Client) (method path : string) (body : option ReqBody)
  : Request :=
  {| Method := method;
     URL := Endpoint c +:+ path;
     BasicAuth := (Username c, Password c);
     ContentType := "application/json";
     Payload := body |}.

(** [doRequest]: one attempt, logged whether it yields a response or an
    error. *)
Definition doRequest (c : Client) (method path : string) (body : option ReqBody)
  : M (error + Response) := λ w,
  let req := newRequest c method path body in
  let '(r, t) := net w req in
  (r, {| now := t; log := (log w ++ [req])%list |}).

(** The body of the loop in [ListIndices]. *)
Definition toIndexInfo (idx : Cat.record) : IndexInfo :=
  let createTime := (time_Parse lib (Cat.CreateTime idx)).1 in
  {| Name := Cat.Index idx;
     Status := Cat.Status idx;
     DocsCount := (λ s, let val := (strconv.ParseInt s).1 in val) (Cat.DocsCount idx);
     StoreSize := Cat.StoreSize idx;
     CreateTime := createTime |}.

(** What [ListIndices] makes of the response it received. *)
Definition decodeIndices (resp : Response) : error + list IndexInfo :=
  match json_Decode lib (Body resp) with
  | inl err => inl err
  | inr indices =>
      inr (foldl (λ result idx, (result ++ [toIndexInfo idx])%list) [] indices)
  end.

Definition ListIndices (c : Client) : M (error + list IndexInfo) :=
  r ← doRequest c "GET" "/_cat/indices?format=json" None;
  match r with
  | inl err => mret (inl err)
  | inr resp => mret (decodeIndices resp)
  end.

(** The selection loop shared by [DeleteIndices] and [CloseIndices]. *)
Definition matching (indexPattern : string) (indices : list IndexInfo) : list string :=
  foldl (λ acc idx,
           if (filepath_Match lib indexPattern (Name idx)).1
           then (acc ++ [Name idx])%list else acc) [] indices.

(** The tail common to every operation: the response is an error when its
    status is 400 or more. *)
Definition checkStatus (what : string) (r : error + Response) : option error :=
  match r with
  | inl err => Some err
  | inr resp =>
      if 400 <=? StatusCode resp
      then Some (what +:+ ": " +:+ Body resp)
      else None
  end.

Definition DeleteIndices (c : Client) (indexPattern : string) : M (option error) :=
  l ← ListIndices c;
  match l with
  | inl err => mret (Some err)
  | inr indices =>
      let toDelete := matching indexPattern indices in
      if (length toDelete =? 0)%nat
      then mret (Some ("no indices match pattern: " +:+ indexPattern))
      else
        let path := "/" +:+ Join toDelete "," in
        r ← doRequest c "DELETE" path None;
        mret (checkStatus "failed to delete indices" r)
  end.

Definition ManageAliases (c : Client) (actions : list AliasAction) : M (option error) :=
  match json_Marshal (BodyActions actions) with
  | inl err => mret (Some err)
  | inr jsonBody =>
      r ← doRequest c "POST" "/_aliases" (Some jsonBody);
      mret (checkStatus "failed to manage aliases" r)
  end.

Definition Rollover (c : Client) (alias : string) (conditions : gmap string value)
  : M (option error) :=
  match json_Marshal (BodyConditions conditions) with
  | inl err => mret (Some err)
  | inr jsonBody =>
      let path := "/" +:+ alias +:+ "/_rollover" in
      r ← doRequest c "POST" path (Some jsonBody);
      mret (checkStatus "failed to rollover index" r)
  end.

Definition Reindex (c : Client) (source dest : string) (query : gmap string value)
  : M (option error) :=
  match json_Marshal (BodyReindex source dest query) with
  | inl err => mret (Some err)
  | inr jsonBody =>
      r ← doRequest c "POST" "/_reindex" (Some jsonBody);
      mret (checkStatus "failed to reindex" r)
  end.

Definition CloseIndices (c : Client) (indexPattern : string) : M (option error) :=
  l ← ListIndices c;
  match l with
  | inl err => mret (Some err)
  | inr indices =>
      let toClose := matching indexPattern indices in
      if (length toClose =? 0)%nat
      then mret (Some ("no indices match pattern: " +:+ indexPattern))
      else
        let path := "/" +:+ Join toClose "," +:+ "/_close" in
        r ← doRequest c "POST" path None;
        mret (checkStatus "failed to close indices" r)
  end.

(** The selection loop of [CleanupByAge]. *)
Definition olderThan (indexPrefix : string) (cutoff : Time) (indices : list IndexInfo)
  : list string :=
  foldl (λ acc idx,
           if HasPrefix (Name idx) indexPrefix && Before (CreateTime idx) cutoff
           then (acc ++ [Name idx])%list else acc) [] indices.

Definition CleanupByAge (c : Client) (indexPrefix : string) (days : Z) : M (option error) :=
  t ← time_Now;
  let cutoff := AddDate_days lib t (int_neg days) in
  l ← ListIndices c;
  match l with
  | inl err => mret (Some err)
  | inr indices =>
      let toDelete := olderThan indexPrefix cutoff indices in
      if (length toDelete =? 0)%nat
      then mret None
      else
        let path := "/" +:+ Join toDelete "," in
        r ← doRequest c "DELETE" path None;
        mret (checkStatus "failed to delete old indices" r)
  end.

Definition OpenIndex (c : Client) (indexName : string) : M (option error) :=
  let path := "/" +:+ indexName +:+ "/_open" in
  r ← doRequest c "POST" path None;
  mret (checkStatus "failed to open index" r).

Definition UpdateIndexSettings (c : Client) (indexName : string)
    (settings : gmap string value) : M (option error) :=
  match json_Marshal (BodySettings settings) with
  | inl err => mret (Some err)
  | inr jsonBody =>
      let path := "/" +:+ indexName +:+ "/_settings" in
      r ← doRequest c "PUT" path (Some jsonBody);
      mret (checkStatus "failed to update settings" r)
  end.

(** The settings [ShrinkIndex] submits with the shrink request. *)
Definition shrinkSettings (settings : gmap string value) : gmap string value :=
  mergeSettings settings
    {[ "index.blocks.write" := VBool true;
       "index.number_of_replicas" := VInt 0;
       "index.number_of_shards" := index settings "number_of_shards" ]}.

(** The settings [ShrinkIndex] applies to the target at the end. *)
Definition finalSettings (settings : gmap string value) : gmap string value :=
  {[ "index.number_of_replicas" := index settings "number_of_replicas";
     "index.blocks.write" := VNil ]}.

Definition ShrinkIndex (c : Client) (source target : string)
    (settings : gmap string value) : M (option error) :=
  (* 1. close the source index *)
  e ← CloseIndices c source;
  match e with
  | Some err => mret (Some ("failed to close source index: " +:+ err))
  | None =>
  (* 2. configure the shrink *)
  match json_Marshal (BodySettings (shrinkSettings settings)) with
  | inl err => mret (Some ("failed to marshal shrink settings: " +:+ err))
  | inr jsonBody =>
  (* 3. run the shrink *)
  let path := "/" +:+ source +:+ "/_shrink/" +:+ target in
  r ← doRequest c "POST" path (Some jsonBody);
  match r with
  | inl err => mret (Some ("failed to execute shrink request: " +:+ err))
  | inr resp =>
  if 400 <=? StatusCode resp
  then mret (Some ("shrink failed with status " +:+ fmt_d (StatusCode resp)
                     +:+ ": " +:+ Body resp))
  else
  (* 4. reopen the indices *)
  e ← OpenIndex c source;
  match e with
  | Some err => mret (Some ("failed to reopen source index: " +:+ err))
  | None =>
  e ← OpenIndex c target;
  match e with
  | Some err => mret (Some ("failed to open target index: " +:+ err))
  | None =>
  (* 5. apply the final settings to the new index *)
  e ← UpdateIndexSettings c target (finalSettings settings);
  match e with
  | Some err => mret (Some ("failed to apply final settings: " +:+ err))
  | None => mret None
  end end end end end end.

(** *** The requests of each operation *)

(** The catalog request of [ListIndices]. *)
Definition listRequest (c : Client) : Request :=
  newRequest c "GET" "/_cat/indices?format=json" None.

(** The bulk requests of [DeleteIndices] and [CloseIndices] on [names]. *)
Definition deleteRequest (c : Client) (names : list string) : Request :=
  newRequest c "DELETE" ("/" +:+ Join names ",") None.

Definition closeRequest (c : Client) (names : list string) : Request :=
  newRequest c "POST" ("/" +:+ Join names "," +:+ "/_close") None.

Definition openRequest (c : Client) (indexName : string) : Request :=
  newRequest c "POST" ("/" +:+ indexName +:+ "/_open") None.

Definition settingsRequest (c : Client) (indexName : string)
    (settings : gmap string value) : Request :=
  newRequest c "PUT" ("/" +:+ indexName +:+ "/_settings") (Some (BodySettings settings)).

Definition shrinkRequest (c : Client) (source target : string)
    (settings : gmap string value) : Request :=
  newRequest c "POST" ("/" +:+ source +:+ "/_shrink/" +:+ target)
    (Some (BodySettings (shrinkSettings settings))).

(** The world after one attempt. *)
Definition after (w : World) (req : Request) : World :=
  {| now := (net w req).2; log := (log w ++ [req])%list |}.

(** The names [DeleteIndices] and [CloseIndices] select: those the pattern
    matches, in the order of the listing. *)
Definition matched (indexPattern : string) (indices : list IndexInfo) : list string :=
  Name <$> List.filter (λ idx, (filepath_Match lib indexPattern (Name idx)).1) indices.

(** The names [CleanupByAge] selects. *)
Definition expired (indexPrefix : string) (cutoff : Time) (indices : list IndexInfo)
  : list string :=
  Name <$> List.filter
             (λ idx, HasPrefix (Name idx) indexPrefix && Before (CreateTime idx) cutoff)
             indices.

(** What [ShrinkIndex] returns once the source is closed, and the requests
    it has issued by then, in order. *)
Inductive ShrinkRun (c : Client) (source target : string)
    (settings : gmap string value) : option error → list Request → Prop :=
  | RunMarshal err :
      marshalMapErr (shrinkSettings settings) = Some err →
      ShrinkRun c source target settings
        (Some ("failed to marshal shrink settings: " +:+ err)) []
  | RunSubmit err :
      ShrinkRun c source target settings
        (Some ("failed to execute shrink request: " +:+ err))
        [shrinkRequest c source target settings]
  | RunStatus resp :
      400 ≤ StatusCode resp →
      ShrinkRun c source target settings
        (Some ("shrink failed with status " +:+ fmt_d (StatusCode resp)
                 +:+ ": " +:+ Body resp))
        [shrinkRequest c source target settings]
  | RunReopen err :
      ShrinkRun c source target settings
        (Some ("failed to reopen source index: " +:+ err))
        [shrinkRequest c source target settings; openRequest c source]
  | RunOpenTarget err :
      ShrinkRun c source target settings
        (Some ("failed to open target index: " +:+ err))
        [shrinkRequest c source target settings; openRequest c source;
         openRequest c target]
  | RunFinal err :
      ShrinkRun c source target settings
        (Some ("failed to apply final settings: " +:+ err))
        [shrinkRequest c source target settings; openRequest c source;
         openRequest c target; settingsRequest c target (finalSettings settings)]
  | RunDone :
      ShrinkRun c source target settings None
        [shrinkRequest c source target settings; openRequest c source;
         openRequest c target; settingsRequest c target (finalSettings settings)].

End Curator.



(** ** A reference runtime

    A small runtime on which the client can be run: a decoder, a timestamp
    parser and a matcher for a fragment of what the Go library accepts, the
    UTC calendar, and transports that answer from a script.  On the texts
    the fragment accepts the results are the Go library's; outside it the
    functions report an error (whose text is not Go's). *)

Module Reference.

Definition quote : string := String (ascii_of_nat 34) "".

(** *** Catalog texts *)

Inductive token :=
  | TLBracket | TRBracket | TLBrace | TRBrace | TColon | TComma
  | TString (s : string) | TBad.

Definition isSpace (c : ascii) : bool :=
  let n := nat_of_ascii c in
  ((n =? 32) || (n =? 9) || (n =? 10) || (n =? 13))%nat.

(** Plain string bytes: printable ASCII other than the quote and the
    backslash. *)
Definition isPlain (c : ascii) : bool :=
  let n := nat_of_ascii c in
  ((32 <=? n) && (n <? 127) && negb (n =? 34) && negb (n =? 92))%nat.

(** [inStr] holds the bytes (reversed) of the string being read. *)
Fixpoint tokens (inStr : option (list ascii)) (cs : list ascii) : list token :=
  match inStr, cs with
  | None, [] => []
  | Some _, [] => [TBad]
  | Some acc, c :: cs' =>
      if (nat_of_ascii c =? 34)%nat
      then TString (string_of_list_ascii (rev acc)) :: tokens None cs'
      else if isPlain c then tokens (Some (c :: acc)) cs'
      else [TBad]
  | None, c :: cs' =>
      if isSpace c then tokens None cs'
      else match c with
           | "["%char => TLBracket :: tokens None cs'
           | "]"%char => TRBracket :: tokens None cs'
           | "{"%char => TLBrace :: tokens None cs'
           | "}"%char => TRBrace :: tokens None cs'
           | ":"%char => TColon :: tokens None cs'
           | ","%char => TComma :: tokens None cs'
           | _ => if (nat_of_ascii c =? 34)%nat then tokens (Some []) cs' else [TBad]
           end
  end.

Definition toLower (c : ascii) : ascii :=
  let n := nat_of_ascii c in
  if ((65 <=? n) && (n <=? 90))%nat then ascii_of_nat (n + 32) else c.

Definition foldName (s : string) : string :=
  string_of_list_ascii (toLower <$> list_ascii_of_string s).

(** A member is stored in the field its key names, letter case aside;
    other members are skipped. *)
Definition setField (k v : string) (r : Cat.record) : Cat.record :=
  let k := foldName k in
  if String.eqb k "index" then
    {| Cat.Index := v; Cat.Status := Cat.Status r; Cat.DocsCount := Cat.DocsCount r;
       Cat.StoreSize := Cat.StoreSize r; Cat.CreateTime := Cat.CreateTime r |}
  else if String.eqb k "status" then
    {| Cat.Index := Cat.Index r; Cat.Status := v; Cat.DocsCount := Cat.DocsCount r;
       Cat.StoreSize := Cat.StoreSize r; Cat.CreateTime := Cat.CreateTime r |}
  else if String.eqb k "docs.count" then
    {| Cat.Index := Cat.Index r; Cat.Status := Cat.Status r; Cat.DocsCount := v;
       Cat.StoreSize := Cat.StoreSize r; Cat.CreateTime := Cat.CreateTime r |}
  else if String.eqb k "store.size" then
    {| Cat.Index := Cat.Index r; Cat.Status := Cat.Status r; Cat.DocsCount := Cat.DocsCount r;
       Cat.StoreSize := v; Cat.CreateTime := Cat.CreateTime r |}
  else if String.eqb k "creation.date.string" then
    {| Cat.Index := Cat.Index r; Cat.Status := Cat.Status r; Cat.DocsCount := Cat.DocsCount r;
       Cat.StoreSize := Cat.StoreSize r; Cat.CreateTime := v |}
  else r.

Definition emptyRecord : Cat.record :=
  {| Cat.Index := ""; Cat.Status := ""; Cat.DocsCount := "";
     Cat.StoreSize := ""; Cat.CreateTime := "" |}.

(** The members of an object, after its opening brace or a comma. *)
Fixpoint members (ts : list token) (r : Cat.record) : option (Cat.record * list token) :=
  match ts with
  | TString k :: TColon :: TString v :: rest =>
      match rest with
      | TComma :: rest' =>
          match rest' with
          | TString _ :: _ => members rest' (setField k v r)
          | _ => None
          end
      | TRBrace :: rest' => Some (setField k v r, rest')
      | _ => None
      end
  | _ => None
  end.

Definition object (ts : list token) : option (Cat.record * list token) :=
  match ts with
  | TLBrace :: TRBrace :: rest => Some (emptyRecord, rest)
  | TLBrace :: rest => members rest emptyRecord
  | _ => None
  end.

(** The objects of an array, after its opening bracket or a comma. *)
Fixpoint elements (fuel : nat) (ts : list token) (acc : list Cat.record)
  : option (list Cat.record) :=
  match fuel with
  | O => None
  | S fuel' =>
      match object ts with
      | Some (r, TComma :: rest) => elements fuel' rest (acc ++ [r])%list
      | Some (r, TRBracket :: _) => Some (acc ++ [r])%list
      | _ => None
      end
  end.

(** Decodes an array of flat objects whose members are plain strings;
    what follows the array is left unread. *)
Definition decode (text : string) : error + list Cat.record :=
  match tokens None (list_ascii_of_string text) with
  | TLBracket :: TRBracket :: _ => inr []
  | TLBracket :: rest =>
      match elements (length rest) rest [] with
      | Some l => inr l
      | None => inl "json: cannot decode the catalog"
      end
  | _ => inl "json: cannot decode the catalog"
  end.

(** The text of a catalog, as the cluster would write it. *)
Definition field (k v : string) : string :=
  quote +:+ k +:+ quote +:+ ":" +:+ quote +:+ v +:+ quote.

Definition render1 (r : Cat.record) : string :=
  "{" +:+ Join [field "index" (Cat.Index r); field "status" (Cat.Status r);
                field "docs.count" (Cat.DocsCount r);
                field "store.size" (Cat.StoreSize r);
                field "creation.date.string" (Cat.CreateTime r)] ","
      +:+ "}".

Definition render (rs : list Cat.record) : string :=
  "[" +:+ Join (render1 <$> rs) "," +:+ "]".

(** *** Timestamps: [YYYY-MM-DDTHH:MM:SSZ] *)

Definition digit (c : ascii) : option Z :=
  let n := Z.of_nat (nat_of_ascii c) in
  if (48 <=? n) && (n <=? 57) then Some (n - 48) else None.

Fixpoint number (cs : list ascii) (acc : Z) : option Z :=
  match cs with
  | [] => Some acc
  | c :: cs' => d ← digit c; number cs' (10 * acc + d)
  end.

Definition isLeap (y : Z) : bool :=
  (y mod 4 =? 0) && (negb (y mod 100 =? 0) || (y mod 400 =? 0)).

Definition daysIn (m y : Z) : Z :=
  if m =? 2 then (if isLeap y then 29 else 28)
  else if (m =? 4) || (m =? 6) || (m =? 9) || (m =? 11) then 30 else 31.

Definition daysBefore (m y : Z) : Z :=
  foldr Z.add 0 ((λ k, daysIn (Z.of_nat k) y) <$> seq 1 (Z.to_nat (m - 1))).

(** Days from January 1, year 1 to the given date. *)
Definition dayNumber (y m d : Z) : Z :=
  365 * (y - 1) + (y - 1) / 4 - (y - 1) / 100 + (y - 1) / 400
  + daysBefore m y + (d - 1).

Definition second : Z := 10 ^ 9.
Definition day : Z := 86400 * second.

Definition instant (s : string) : option Time :=
  match list_ascii_of_string s with
  | [y1; y2; y3; y4; "-"%char; m1; m2; "-"%char; d1; d2; "T"%char;
     h1; h2; ":"%char; n1; n2; ":"%char; s1; s2; "Z"%char] =>
      y ← number [y1; y2; y3; y4] 0;
      m ← number [m1; m2] 0;
      d ← number [d1; d2] 0;
      h ← number [h1; h2] 0;
      n ← number [n1; n2] 0;
      sec ← number [s1; s2] 0;
      if (1 <=? m) && (m <=? 12) && (1 <=? d) && (d <=? daysIn m y)
         && (h <? 24) && (n <? 60) && (sec <? 60)
      then Some ((((dayNumber y m d * 24 + h) * 60 + n) * 60 + sec) * second)
      else None
  | _ => None
  end.

Definition parseTime (s : string) : Time * option error :=
  match instant s with
  | Some t => (t, None)
  | None => (zeroTime, Some ("parsing time " +:+ quote +:+ s +:+ quote))
  end.

Lemma parseTime_zero s : is_Some (parseTime s).2 → (parseTime s).1 = zeroTime.
Proof.
  unfold parseTime. destruct (instant s); simpl; [|done].
  intros [e He]. discriminate He.
Qed.

(** *** Patterns: literal bytes, [*] and [?] over ASCII names *)

Definition isSeparator (c : ascii) : bool := Ascii.eqb c "/".

Fixpoint glob (pattern : list ascii) : list ascii → bool :=
  match pattern with
  | [] => λ name, match name with [] => true | _ => false end
  | "*"%char :: pattern' =>
      fix star (name : list ascii) : bool :=
        glob pattern' name ||
        match name with
        | c :: name' => negb (isSeparator c) && star name'
        | [] => false
        end
  | "?"%char :: pattern' =>
      λ name, match name with
              | c :: name' => negb (isSeparator c) && glob pattern' name'
              | [] => false
              end
  | p :: pattern' =>
      λ name, match name with
              | c :: name' => Ascii.eqb p c && glob pattern' name'
              | [] => false
              end
  end.

(** Character classes and escapes are outside the fragment. *)
Definition isMeta (c : ascii) : bool := Ascii.eqb c "[" || Ascii.eqb c "\".

Definition matchPattern (pattern name : string) : bool * option error :=
  if existsb isMeta (list_ascii_of_string pattern)
  then (false, Some "syntax error in pattern")
  else (glob (list_ascii_of_string pattern) (list_ascii_of_string name), None).

(** The calendar of the UTC location. *)
Definition addDays (t : Time) (days : Z) : Time := t + days * day.

Definition lib : GoLib :=
  {| json_Decode := decode;
     time_Parse := parseTime;
     time_Parse_zero := parseTime_zero;
     filepath_Match := matchPattern;
     AddDate_days := addDays |}.

(** *** Transports *)

(** Answers the n-th attempt with the n-th entry of the script: an
    outcome and the time the exchange takes. *)
Definition scripted (script : list ((error + Response) * Z)) : Transport :=
  λ w _,
    match script !! length (log w) with
    | Some (r, elapsed) => (r, now w + elapsed)
    | None => (inl "connection refused", now w)
    end.

Definition ok (body : string) : (error + Response) * Z :=
  (inr {| StatusCode := 200; Body := body |}, 0).

Definition status (code : Z) (body : string) : (error + Response) * Z :=
  (inr {| StatusCode := code; Body := body |}, 0).

Definition client : Client :=
  {| Endpoint := "http://localhost:9200"; Username := "admin"; Password := "adminpassword" |}.

Definition start (t : Time) : World := {| now := t; log := [] |}.

Definition entry (name created : string) : Cat.record :=
  {| Cat.Index := name; Cat.Status := "open"; Cat.DocsCount := "1";
     Cat.StoreSize := "1kb"; Cat.CreateTime := created |}.

End Reference.



(** ** Scenarios on the reference runtime *)

Module Scenario.
Import Reference.

(** The call of [exemplo2] in [main.go]. *)
Definition source : string := "logs-2023.10.01".
Definition target : string := "logs-2023.10.01-shrink".
Definition settings : gmap string value :=
  {[ "number_of_shards" := VInt 1; "number_of_replicas" := VInt 1 ]}.

(** A cluster with the three indices of the retention example, and one
    created at the very instant of the cutoff. *)
Definition today : Time := (parseTime "2023-02-10T00:00:00Z").1.

Definition catalog : list Cat.record :=
  [ entry "logs-2023-01-01" "2023-01-01T00:00:00Z";
    entry "logs-2023-02-01" "2023-02-05T00:00:00Z";
    entry "other-index" "2023-01-01T00:00:00Z";
    entry "logs-2023-01-11" "2023-01-11T00:00:00Z" ].

Definition indices : list IndexInfo := toIndexInfo lib <$> catalog.

(** The listing takes an hour; everything else is answered at once. *)
Definition listing : (error + Response) * Z :=
  (inr {| StatusCode := 200; Body := render catalog |}, 3600 * second).

Definition healthy : Transport :=
  scripted [listing; ok "{}"; ok "{}"; ok "{}"; ok "{}"; ok "{}"].

(** A cluster that holds the source index of [exemplo2] alone. *)
Definition single : (error + Response) * Z :=
  ok (render [entry source "2023-10-01T00:00:00Z"]).

Definition closeRefused : Transport := scripted [single; status 403 "forbidden"].
Definition reopenRefused : Transport :=
  scripted [single; ok "{}"; ok "{}"; status 500 "index_closed_exception"].

(** A catalog whose counts and dates do not all parse. *)
Definition untidy : list Cat.record :=
  [ {| Cat.Index := "a"; Cat.Status := "open"; Cat.DocsCount := "12";
       Cat.StoreSize := "1kb"; Cat.CreateTime := "2023-01-01T00:00:00Z" |};
    {| Cat.Index := "b"; Cat.Status := "close"; Cat.DocsCount := "";
       Cat.StoreSize := ""; Cat.CreateTime := "" |};
    {| Cat.Index := "c"; Cat.Status := "open"; Cat.DocsCount := "9223372036854775808";
       Cat.StoreSize := "8eb"; Cat.CreateTime := "yesterday" |} ].

(** The world in which the examples start. *)
Definition w0 : World := start today.

End Scenario.

(** ** Further scenarios *)

(** A cluster that cannot be reached. *)
Definition down : Transport := Reference.scripted [].

(** A cluster that holds the source of [exemplo2] and answers every
    request of [main]. *)
Definition obliging : Transport :=
  Reference.scripted
    [Scenario.single; Reference.ok "{}";
     Scenario.single; Reference.ok "{}"; Reference.ok "{}"; Reference.ok "{}";
     Reference.ok "{}"; Reference.ok "{}"].

(** A rollover condition that is a Go function. *)
Definition unencodable : gmap string value :=
  {[ "max_age" := VString "7d"; "max_docs" := VUnsupported "func() int" ]}.

(** ** The program [main.go] *)

(** [NewClient]: the [http.Client] it builds, with its 30 second timeout, is
    the [Transport] the client runs against. *)
Definition NewClient (endpoint username password : string) : Client :=
  {| Endpoint := endpoint; Username := username; Password := password |}.

Module Main.
Section Program.

Variable lib : GoLib.
Variable net : Transport.

(** [log.Fatalf] ends the process: an [exemplo] returns the message it ends
    with, if any. *)
Definition exemplo1 : M (option string) :=
  let client := NewClient "http://localhost:9200" "admin" "adminpassword" in
  e ← CleanupByAge lib net client "logs-" 30;
  match e with
  | Some err => mret (Some ("Failed to cleanup old indices: " +:+ err))
  | None =>
      let conditions : gmap string value :=
        {[ "max_age" := VString "7d"; "max_docs" := VInt 1000000 ]} in
      e ← Rollover net client "logs-current" conditions;
      match e with
      | Some err => mret (Some ("Failed to rollover index: " +:+ err))
      | None => mret None
      end
  end.

(** [exemplo2] returns the fatal message, or the lines it printed. *)
Definition exemplo2 : M (string + list string) :=
  let client := NewClient "http://localhost:9200" "admin" "adminpassword" in
  let settings : gmap string value :=
    {[ "number_of_shards" := VInt 1; "number_of_replicas" := VInt 1 ]} in
  e ← ShrinkIndex lib net client "logs-2023.10.01" "logs-2023.10.01-shrink" settings;
  match e with
  | Some err => mret (inl ("Failed to shrink index: " +:+ err))
  | None => mret (inr ["Index shrunk successfully!"])
  end.

Definition main : M (string + list string) :=
  fatal ← exemplo1;
  match fatal with
  | Some msg => mret (inl msg)
  | None => exemplo2
  end.

End Program.
End Main.

(** ** What an operation sends *)

(** A request built by [doRequest] for the client [c]. *)
Definition fromClient (c : Client) (r : Request) : Prop :=
  BasicAuth r = (Username c, Password c)
  ∧ ContentType r = "application/json"
  ∧ String.prefix (Endpoint c) (URL r) = true.

(** The computation [m] only appends to the log, at most [n] requests, all
    of them built for [c]. *)
Definition sends {A} (c : Client) (n : nat) (m : M A) : Prop :=
  ∀ w, ∃ reqs,
    log (m w).2 = (log w ++ reqs)%list
    ∧ (length reqs ≤ n)%nat
    ∧ Forall (fromClient c) reqs.

(** The attempt [req] made in the world [w] is answered with a status below
    400. *)
Definition answered (net : Transport) (w : World) (req : Request) : Prop :=
  ∃ resp, (net w req).1 = inr resp ∧ StatusCode resp < 400.

(** The requests of one [CleanupByAge]: the listing, then at most one
    delete request. *)
Definition cleanupLog (c : Client) (reqs : list Request) : Prop :=
  reqs = [listRequest c]
  ∨ ∃ names, names ≠ [] ∧ reqs = [listRequest c; deleteRequest c names].

(** The computation [m] only appends to the log, and only requests that
    satisfy [P]. *)
Definition emits {A} (P : Request → Prop) (m : M A) : Prop :=
  ∀ w, ∃ reqs, log (m w).2 = (log w ++ reqs)%list ∧ Forall P reqs.

(** A request that removes nothing: its method is not DELETE. *)
Definition harmless (r : Request) : Prop :=
  Method r = "GET" ∨ Method r = "POST" ∨ Method r = "PUT".

(** The request of [Rollover]. *)
Definition rolloverRequest (c : Client) (alias : string)
    (conditions : gmap string value) : Request :=
  newRequest c "POST" ("/" +:+ alias +:+ "/_rollover")
    (Some (BodyConditions conditions)).

(** ** The text of a document count *)

(** The words in which the properties below describe the text of a
    [docs.count] field; they are written from the shape of the text alone,
    and [strconv.ParseInt] above is compared with them. *)

Definition charCode (ch : ascii) : Z := Z.of_N (N_of_ascii ch).

(** A decimal digit, ['0'] to ['9'], and its value. *)
Definition isDigit (ch : ascii) : bool := (48 <=? charCode ch) && (charCode ch <=? 57).

Definition digitValue (ch : ascii) : Z := charCode ch - 48.

(** A text is read as one optional sign, [+] or [-], and the body after it. *)
Definition splitSign (s : string) : bool * string :=
  match s with
  | "" => (false, "")
  | String ch rest =>
      if Ascii.eqb ch "+" then (false, rest)
      else if Ascii.eqb ch "-" then (true, rest)
      else (false, s)
  end.

(** Whether the text starts with a minus sign, and its body. *)
Definition minus (s : string) : bool := (splitSign s).1.

Definition unsignedPart (s : string) : string := (splitSign s).2.

(** The digits a text starts with, up to its first other character. *)
Fixpoint leadingDigits (cs : list ascii) : list ascii :=
  match cs with
  | ch :: cs' => if isDigit ch then ch :: leadingDigits cs' else []
  | [] => []
  end.

(** The number a run of digits writes, continuing from [n]. *)
Definition decimalFrom (n : Z) (ds : list ascii) : Z :=
  foldl (λ a ch, 10 * a + digitValue ch) n ds.

(** A body that is a decimal number: one digit or more, and nothing else. *)
Definition isDecimal (body : string) : bool :=
  match body with
  | "" => false
  | _ => forallb isDigit (list_ascii_of_string body)
  end.

(** The number the leading digits of a body write (the whole body, when it is
    a decimal number), as a natural number of any size. *)
Definition leadingValue (body : string) : Z :=
  decimalFrom 0 (leadingDigits (list_ascii_of_string body)).

(** The same number with the sign of the text. *)
Definition signedValue (s : string) : Z :=
  if minus s then - leadingValue (unsignedPart s) else leadingValue (unsignedPart s).

(** The bound of the int64 range on the side of a sign. *)
Definition int64Bound (neg : bool) : Z := if neg then - 2 ^ 63 else 2 ^ 63 - 1.

(** The count [ListIndices] decodes from a record of the catalog whose
    [docs.count] is [s], with the reference runtime. *)
Definition counted (s : string) : Z :=
  DocsCount (toIndexInfo Reference.lib
    {| Cat.Index := "x"; Cat.Status := "open"; Cat.DocsCount := s;
       Cat.StoreSize := "1kb"; Cat.CreateTime := "" |}).

(** * Properties *)

(** ** Lists and strings *)

Lemma foldl_snoc_map {A B} (f : A → B) (l : list A) (acc : list B) :
  foldl (λ acc x, (acc ++ [f x])%list) acc l = (acc ++ (f <$> l))%list.
Proof.
  revert acc. induction l as [|x l IH]; intros acc; simpl.
  - by rewrite app_nil_r.
  - rewrite IH. by rewrite <- app_assoc.
Qed.

Lemma foldl_snoc_filter {A B} (p : A → bool) (f : A → B) (l : list A) (acc : list B) :
  foldl (λ acc x, if p x then (acc ++ [f x])%list else acc) acc l
  = (acc ++ (f <$> List.filter p l))%list.
Proof.
  revert acc. induction l as [|x l IH]; intros acc; simpl.
  - by rewrite app_nil_r.
  - rewrite IH. destruct (p x); simpl; [|done]. by rewrite <- app_assoc.
Qed.

(** ** [mergeSettings] *)

Lemma fold_insert_union (m r : gmap string value) :
  map_fold (λ k v result, <[k:=v]> result) r m = m ∪ r.
Proof.
  apply (map_fold_weak_ind (λ res m, res = m ∪ r)).
  - by rewrite (left_id_L ∅ (∪)).
  - intros k v m' res _ ->. by rewrite insert_union_l.
Qed.

Lemma mergeSettings_union (base override : gmap string value) :
  mergeSettings base override = override ∪ base.
Proof.
  unfold mergeSettings. rewrite !fold_insert_union.
  by rewrite (right_id_L ∅ (∪)).
Qed.

(** C8: the settings merge is right-biased.  Every key of [override] maps to
    the value [override] gives it, every key of [base] that [override] lacks
    maps to the value [base] gives it, no other key appears; and
    merge({a:1, b:2}, {b:3}) is {a:1, b:3}. *)
Theorem mergeSettings_right_biased :
  (∀ (base override : gmap string value) (k : string),
     mergeSettings base override !! k =
       match override !! k with
       | Some v => Some v
       | None => base !! k
       end)
  ∧ mergeSettings {[ "a" := VInt 1; "b" := VInt 2 ]} {[ "b" := VInt 3 ]}
    = {[ "a" := VInt 1; "b" := VInt 3 ]}.
Proof.
  split.
  - intros base override k. rewrite mergeSettings_union.
    destruct (override !! k) as [v|] eqn:Hk.
    + by apply lookup_union_Some_l.
    + by rewrite lookup_union_r.
  - vm_compute. reflexivity.
Qed.

(** ** The request log *)

Section Facts.

Variable lib : GoLib.
Variable net : Transport.
Variable c : Client.

Lemma doRequest_eq method path body w :
  doRequest net c method path body w
  = ((net w (newRequest c method path body)).1,
     after net w (newRequest c method path body)).
Proof. unfold doRequest, after. by destruct (net w _). Qed.

Lemma ListIndices_eq w :
  ListIndices lib net c w
  = (match (net w (listRequest c)).1 with
     | inl err => inl err
     | inr resp => decodeIndices lib resp
     end, after net w (listRequest c)).
Proof.
  unfold ListIndices, mbind, M_bind. rewrite doRequest_eq. fold (listRequest c).
  by destruct (net w (listRequest c)).1.
Qed.

Lemma ListIndices_world w r w1 :
  ListIndices lib net c w = (r, w1) → w1 = after net w (listRequest c).
Proof. rewrite ListIndices_eq. congruence. Qed.

Lemma matching_matched indexPattern indices :
  matching lib indexPattern indices = matched lib indexPattern indices.
Proof. unfold matching, matched. by rewrite foldl_snoc_filter. Qed.

Lemma matched_nil indexPattern indices :
  Forall (λ idx, (filepath_Match lib indexPattern (Name idx)).1 = false) indices →
  matched lib indexPattern indices = [].
Proof.
  unfold matched. induction 1 as [|idx l Hx _ IH]; simpl; [done|].
  by rewrite Hx.
Qed.

Lemma DeleteIndices_eq indexPattern w :
  DeleteIndices lib net c indexPattern w =
    match ListIndices lib net c w with
    | (inl err, w1) => (Some err, w1)
    | (inr indices, w1) =>
        match matched lib indexPattern indices with
        | [] => (Some ("no indices match pattern: " +:+ indexPattern), w1)
        | names =>
            (checkStatus "failed to delete indices" (net w1 (deleteRequest c names)).1,
             after net w1 (deleteRequest c names))
        end
    end.
Proof.
  unfold DeleteIndices, mbind, M_bind.
  destruct (ListIndices lib net c w) as [[err|indices] w1]; [done|].
  rewrite matching_matched.
  destruct (matched lib indexPattern indices) as [|n names]; [done|].
  cbn [length Nat.eqb]. by rewrite doRequest_eq.
Qed.

Lemma CloseIndices_eq indexPattern w :
  CloseIndices lib net c indexPattern w =
    match ListIndices lib net c w with
    | (inl err, w1) => (Some err, w1)
    | (inr indices, w1) =>
        match matched lib indexPattern indices with
        | [] => (Some ("no indices match pattern: " +:+ indexPattern), w1)
        | names =>
            (checkStatus "failed to close indices" (net w1 (closeRequest c names)).1,
             after net w1 (closeRequest c names))
        end
    end.
Proof.
  unfold CloseIndices, mbind, M_bind.
  destruct (ListIndices lib net c w) as [[err|indices] w1]; [done|].
  rewrite matching_matched.
  destruct (matched lib indexPattern indices) as [|n names]; [done|].
  cbn [length Nat.eqb]. by rewrite doRequest_eq.
Qed.

(** C4: when no listed index name matches the pattern, [DeleteIndices] and
    [CloseIndices] both fail with the no-match error that names the pattern,
    and the listing request is the only request issued. *)
Theorem no_match_is_an_error indexPattern w indices w1 :
  ListIndices lib net c w = (inr indices, w1) →
  Forall (λ idx, (filepath_Match lib indexPattern (Name idx)).1 = false) indices →
  DeleteIndices lib net c indexPattern w
    = (Some ("no indices match pattern: " +:+ indexPattern), w1)
  ∧ CloseIndices lib net c indexPattern w
    = (Some ("no indices match pattern: " +:+ indexPattern), w1)
  ∧ log w1 = (log w ++ [listRequest c])%list.
Proof.
  intros Hlist Hnone.
  rewrite DeleteIndices_eq, CloseIndices_eq, Hlist, (matched_nil _ _ Hnone).
  by rewrite (ListIndices_world _ _ _ Hlist).
Qed.

(** C5: when at least one listed index name matches the pattern,
    [DeleteIndices] (and likewise [CloseIndices]) issues, after the listing,
    exactly one bulk request, whose path is the matched names joined by
    commas in the order of the listing. *)
Theorem one_bulk_request indexPattern w indices w1 :
  ListIndices lib net c w = (inr indices, w1) →
  matched lib indexPattern indices ≠ [] →
  log (DeleteIndices lib net c indexPattern w).2
    = (log w ++ [listRequest c;
                 newRequest c "DELETE"
                   ("/" +:+ Join (matched lib indexPattern indices) ",") None])%list
  ∧ log (CloseIndices lib net c indexPattern w).2
    = (log w ++ [listRequest c;
                 newRequest c "POST"
                   ("/" +:+ Join (matched lib indexPattern indices) "," +:+ "/_close")
                   None])%list.
Proof.
  intros Hlist Hsome.
  rewrite DeleteIndices_eq, CloseIndices_eq, Hlist.
  rewrite (ListIndices_world _ _ _ Hlist).
  destruct (matched lib indexPattern indices) as [|n names] eqn:Hm; [done|].
  simpl. by rewrite <- !app_assoc.
Qed.

(** *** [CleanupByAge] *)

Lemma olderThan_expired indexPrefix cutoff indices :
  olderThan indexPrefix cutoff indices = expired indexPrefix cutoff indices.
Proof. unfold olderThan, expired. by rewrite foldl_snoc_filter. Qed.

Lemma CleanupByAge_eq indexPrefix days w :
  CleanupByAge lib net c indexPrefix days w =
    match ListIndices lib net c w with
    | (inl err, w1) => (Some err, w1)
    | (inr indices, w1) =>
        match expired indexPrefix (AddDate_days lib (now w) (int_neg days)) indices with
        | [] => (None, w1)
        | names =>
            (checkStatus "failed to delete old indices" (net w1 (deleteRequest c names)).1,
             after net w1 (deleteRequest c names))
        end
    end.
Proof.
  unfold CleanupByAge, mbind, M_bind, time_Now.
  destruct (ListIndices lib net c w) as [[err|indices] w1]; [done|].
  rewrite olderThan_expired.
  destruct (expired _ _ indices) as [|n names]; [done|].
  cbn [length Nat.eqb]. by rewrite doRequest_eq.
Qed.

(** C6: [CleanupByAge] takes its cutoff from the clock as it stands when the
    call starts, [days] days back, whatever time the listing then takes; it
    selects the indices whose name starts with the prefix and whose creation
    time is strictly before the cutoff; with nothing selected it returns nil
    and has issued the listing request only, and otherwise it issues one
    delete request for the selected names. *)
Theorem cleanup_by_age indexPrefix days w indices w1 :
  ListIndices lib net c w = (inr indices, w1) →
  let cutoff := AddDate_days lib (now w) (int_neg days) in
  let names :=
    Name <$> List.filter
               (λ idx, String.prefix indexPrefix (Name idx)
                       && (CreateTime idx <? cutoff)) indices in
  (names = [] →
     CleanupByAge lib net c indexPrefix days w = (None, w1)
     ∧ log w1 = (log w ++ [listRequest c])%list)
  ∧ (names ≠ [] →
     log (CleanupByAge lib net c indexPrefix days w).2
     = (log w ++ [listRequest c;
                  newRequest c "DELETE" ("/" +:+ Join names ",") None])%list).
Proof.
  intros Hlist cutoff names.
  rewrite CleanupByAge_eq, Hlist, (ListIndices_world _ _ _ Hlist).
  change (expired indexPrefix (AddDate_days lib (now w) (int_neg days)) indices)
    with names.
  split.
  - by intros ->.
  - intros Hne. destruct names as [|n names']; [done|].
    simpl. by rewrite <- !app_assoc.
Qed.

(** *** [ListIndices] *)

Lemma decodeIndices_eq resp :
  decodeIndices lib resp
  = match json_Decode lib (Body resp) with
    | inl err => inl err
    | inr records => inr (toIndexInfo lib <$> records)
    end.
Proof.
  unfold decodeIndices. destruct (json_Decode lib (Body resp)); [done|].
  by rewrite foldl_snoc_map.
Qed.

(** *** The integer parser, text by text *)

Lemma wrap64_small n : 0 ≤ n ≤ 2 ^ 64 - 1 → strconv.wrap64 n = n.
Proof. intros H. unfold strconv.wrap64. apply Z.mod_small. lia. Qed.

Lemma wrap64_once n : 2 ^ 64 ≤ n < 2 * 2 ^ 64 → strconv.wrap64 n = n - 2 ^ 64.
Proof.
  intros H. unfold strconv.wrap64. symmetry.
  apply (Z.mod_unique n (2 ^ 64) 1); lia.
Qed.

Lemma decimalFrom_ge cs n : 0 ≤ n → n ≤ decimalFrom n (leadingDigits cs).
Proof.
  revert n. induction cs as [|ch cs IH]; intros n Hn; simpl; [lia|].
  destruct (isDigit ch) eqn:Hd; simpl; [|lia].
  unfold isDigit in Hd. apply andb_prop in Hd as [H1 H2].
  apply Z.leb_le in H1, H2.
  etrans; [|apply IH]; unfold digitValue; lia.
Qed.

(** The digit loop stops with a range error as soon as the digits read so far
    pass the largest uint64, before it looks at the next character; with a
    syntax error at the first character that is no digit; with the number
    written otherwise. *)
Lemma ParseUint_loop_spec cs n :
  0 ≤ n ≤ 2 ^ 64 - 1 →
  strconv.ParseUint_loop cs n
  = if decimalFrom n (leadingDigits cs) <=? 2 ^ 64 - 1
    then if forallb isDigit cs
         then (decimalFrom n (leadingDigits cs), None)
         else (0, Some strconv.ErrSyntax)
    else (2 ^ 64 - 1, Some strconv.ErrRange).
Proof.
  revert n. induction cs as [|ch cs IH]; intros n Hn.
  { simpl. by rewrite (proj2 (Z.leb_le _ _)) by lia. }
  cbn [strconv.ParseUint_loop leadingDigits forallb].
  change (Z.of_N (N_of_ascii ch)) with (charCode ch).
  change ((48 <=? charCode ch) && (charCode ch <=? 57)) with (isDigit ch).
  change (strconv.maxUint64 `div` 10 + 1) with 1844674407370955162.
  change (strconv.wrap64 (1 ≪ 64 - 1)) with (2 ^ 64 - 1).
  destruct (isDigit ch) eqn:Hd.
  - pose proof Hd as Hd'. unfold isDigit in Hd'. apply andb_prop in Hd' as [H1 H2].
    apply Z.leb_le in H1, H2.
    assert ((10 <=? charCode ch - 48) = false) as -> by (apply Z.leb_gt; lia).
    cbn [decimalFrom foldl andb].
    fold (decimalFrom (10 * n + digitValue ch) (leadingDigits cs)).
    pose proof (decimalFrom_ge cs (10 * n + digitValue ch)) as Hge.
    unfold digitValue in *.
    destruct (1844674407370955162 <=? n) eqn:Hcut.
    { apply Z.leb_le in Hcut. by rewrite (proj2 (Z.leb_gt _ _)) by lia. }
    apply Z.leb_gt in Hcut.
    rewrite (wrap64_small (n * 10)) by lia.
    destruct (decide (n * 10 + (charCode ch - 48) ≤ 2 ^ 64 - 1)) as [Hfit|Hover].
    + rewrite (wrap64_small (n * 10 + (charCode ch - 48))) by lia.
      assert ((n * 10 + (charCode ch - 48) <? n * 10) = false) as ->
        by (apply Z.ltb_ge; lia).
      assert ((2 ^ 64 - 1 <? n * 10 + (charCode ch - 48)) = false) as ->
        by (apply Z.ltb_ge; lia).
      cbn [orb]. rewrite IH by lia.
      by replace (10 * n + (charCode ch - 48)) with (n * 10 + (charCode ch - 48)) by lia.
    + rewrite (wrap64_once (n * 10 + (charCode ch - 48))) by lia.
      assert ((n * 10 + (charCode ch - 48) - 2 ^ 64 <? n * 10) = true) as ->
        by (apply Z.ltb_lt; lia).
      cbn [orb]. by rewrite (proj2 (Z.leb_gt _ _)) by lia.
  - cbn [decimalFrom foldl andb].
    rewrite (proj2 (Z.leb_le n _)) by lia.
    destruct ((97 <=? strconv.lower (charCode ch)) && (strconv.lower (charCode ch) <=? 122))
      eqn:Hl; [|done].
    apply andb_prop in Hl as [Hl _]. apply Z.leb_le in Hl.
    by rewrite (proj2 (Z.leb_le 10 _)) by lia.
Qed.

Lemma ParseUint_spec body :
  strconv.ParseUint body
  = match body with
    | "" => (0, Some strconv.ErrSyntax)
    | _ =>
        if leadingValue body <=? 2 ^ 64 - 1
        then if isDecimal body then (leadingValue body, None)
             else (0, Some strconv.ErrSyntax)
        else (2 ^ 64 - 1, Some strconv.ErrRange)
    end.
Proof.
  destruct body as [|ch rest]; [done|].
  unfold strconv.ParseUint. rewrite ParseUint_loop_spec by lia. reflexivity.
Qed.

(** What [strconv.ParseInt] makes of a text, in terms of the text alone. *)
Lemma ParseInt_spec s :
  strconv.ParseInt s
  = if isDecimal (unsignedPart s)
    then if (- 2 ^ 63 <=? signedValue s) && (signedValue s <=? 2 ^ 63 - 1)
         then (signedValue s, None)
         else (int64Bound (minus s), Some strconv.ErrRange)
    else if leadingValue (unsignedPart s) <=? 2 ^ 64 - 1
         then (0, Some strconv.ErrSyntax)
         else (int64Bound (minus s), Some strconv.ErrRange).
Proof.
  destruct s as [|c0 rest]; [done|].
  unfold signedValue, unsignedPart, minus, int64Bound, strconv.ParseInt, splitSign.
  set (sign := if Ascii.eqb c0 "+" then _ else _).
  destruct sign as [neg body]. cbn [fst snd]. cbv zeta.
  rewrite ParseUint_spec. change (1 ≪ 63) with (2 ^ 63).
  pose proof (decimalFrom_ge (list_ascii_of_string body) 0) as Hv.
  fold (leadingValue body) in Hv.
  destruct body as [|ch body']; [by destruct neg|].
  set (v := leadingValue _) in *.
  destruct (v <=? 2 ^ 64 - 1) eqn:Hfit.
  - apply Z.leb_le in Hfit.
    destruct (isDecimal (String ch body')); [|done].
    destruct neg; cbn [negb andb].
    + destruct (2 ^ 63 <? v) eqn:Hlt.
      * apply Z.ltb_lt in Hlt.
        by rewrite (proj2 (Z.leb_gt (- 2 ^ 63) (- v))) by lia.
      * apply Z.ltb_ge in Hlt.
        rewrite (proj2 (Z.leb_le (- 2 ^ 63) (- v))) by lia.
        by rewrite (proj2 (Z.leb_le (- v) _)) by lia.
    + destruct (2 ^ 63 <=? v) eqn:Hle.
      * apply Z.leb_le in Hle.
        rewrite (proj2 (Z.leb_le (- 2 ^ 63) v)) by lia.
        by rewrite (proj2 (Z.leb_gt v _)) by lia.
      * apply Z.leb_gt in Hle.
        rewrite (proj2 (Z.leb_le (- 2 ^ 63) v)) by lia.
        by rewrite (proj2 (Z.leb_le v _)) by lia.
  - apply Z.leb_gt in Hfit.
    destruct neg; cbn [negb andb].
    + rewrite (proj2 (Z.ltb_lt (2 ^ 63) _)) by lia.
      destruct (isDecimal _); [|done].
      by rewrite (proj2 (Z.leb_gt (- 2 ^ 63) (- v))) by lia.
    + rewrite (proj2 (Z.leb_le (2 ^ 63) _)) by lia.
      destruct (isDecimal _); [|done].
      rewrite (proj2 (Z.leb_le (- 2 ^ 63) v)) by lia.
      by rewrite (proj2 (Z.leb_gt v _)) by lia.
Qed.

(** C9, as the code has it: when the catalog decodes, [ListIndices] returns
    one [IndexInfo] per record, in order, and no document count gives an
    error.  With the text of a document count read as an optional sign
    followed by a body:
    - a body of decimal digits whose signed number is in the int64 range
      parses, and [DocsCount] is that number;
    - a body of decimal digits whose signed number is above the range fails
      to parse and gives the largest int64, one below the range the smallest:
      the nearest bound, not 0;
    - a body that is not one digit or more, all decimal, fails to parse and
      gives 0 as long as the digits it starts with, up to its first other
      character, write no more than the largest uint64;
    - past that, the parser stops before it meets the other character, and
      the count is the int64 bound on the side of the sign.
    A creation timestamp that does not parse gives the zero time; an empty
    catalog gives an empty list and a nil error. *)
Theorem list_indices_decoding w resp t records :
  net w (listRequest c) = (inr resp, t) →
  json_Decode lib (Body resp) = inr records →
  ListIndices lib net c w
    = (inr (toIndexInfo lib <$> records), after net w (listRequest c))
  ∧ (∀ r, let s := Cat.DocsCount r in
          (isDecimal (unsignedPart s) = true →
           - 2 ^ 63 ≤ signedValue s ≤ 2 ^ 63 - 1 →
           (strconv.ParseInt s).2 = None
           ∧ DocsCount (toIndexInfo lib r) = signedValue s)
          ∧ (isDecimal (unsignedPart s) = true →
             2 ^ 63 - 1 < signedValue s →
             (strconv.ParseInt s).2 = Some strconv.ErrRange
             ∧ DocsCount (toIndexInfo lib r) = 2 ^ 63 - 1)
          ∧ (isDecimal (unsignedPart s) = true →
             signedValue s < - 2 ^ 63 →
             (strconv.ParseInt s).2 = Some strconv.ErrRange
             ∧ DocsCount (toIndexInfo lib r) = - 2 ^ 63)
          ∧ (isDecimal (unsignedPart s) = false →
             leadingValue (unsignedPart s) ≤ 2 ^ 64 - 1 →
             (strconv.ParseInt s).2 = Some strconv.ErrSyntax
             ∧ DocsCount (toIndexInfo lib r) = 0)
          ∧ (isDecimal (unsignedPart s) = false →
             2 ^ 64 - 1 < leadingValue (unsignedPart s) →
             (strconv.ParseInt s).2 = Some strconv.ErrRange
             ∧ DocsCount (toIndexInfo lib r) = int64Bound (minus s)))
  ∧ (∀ r, is_Some (time_Parse lib (Cat.CreateTime r)).2 →
          CreateTime (toIndexInfo lib r) = zeroTime)
  ∧ (records = [] → (ListIndices lib net c w).1 = inr []).
Proof.
  intros Hnet Hdec.
  assert (ListIndices lib net c w
          = (inr (toIndexInfo lib <$> records), after net w (listRequest c))) as Heq.
  { rewrite ListIndices_eq, Hnet. simpl. by rewrite decodeIndices_eq, Hdec. }
  split; [done|]. split; [|split].
  - intros r s. unfold toIndexInfo. cbn [DocsCount]. fold s.
    pose proof (decimalFrom_ge (list_ascii_of_string (unsignedPart s)) 0) as Hv.
    fold (leadingValue (unsignedPart s)) in Hv.
    assert (minus s = true → signedValue s ≤ 0) as Hneg.
    { unfold signedValue. intros ->. lia. }
    assert (minus s = false → 0 ≤ signedValue s) as Hpos.
    { unfold signedValue. intros ->. lia. }
    rewrite (ParseInt_spec s). split_and!.
    + intros -> [Hlo Hhi].
      rewrite (proj2 (Z.leb_le _ _) Hlo), (proj2 (Z.leb_le _ _) Hhi).
      split; reflexivity.
    + intros -> Hhi.
      rewrite (proj2 (Z.leb_gt (signedValue s) _)) by lia.
      rewrite andb_false_r. unfold int64Bound.
      destruct (minus s); [lia|]. split; reflexivity.
    + intros -> Hlo.
      rewrite (proj2 (Z.leb_gt _ (signedValue s))) by lia.
      cbn [andb]. unfold int64Bound.
      destruct (minus s); [|lia]. split; reflexivity.
    + intros -> Hfit.
      rewrite (proj2 (Z.leb_le _ _) Hfit). split; reflexivity.
    + intros -> Hover.
      rewrite (proj2 (Z.leb_gt _ _)) by lia. split; reflexivity.
  - intros r. apply (time_Parse_zero lib).
  - intros ->. by rewrite Heq.
Qed.

(** *** Encoding *)

Lemma firstErr_None l : firstErr l = None ↔ Forall (λ o, o = None) l.
Proof.
  induction l as [|[e|] l IH]; simpl.
  - split; [constructor|done].
  - split; [done|]. by inversion 1.
  - rewrite IH. split; [by constructor|]. by inversion 1.
Qed.

Lemma marshalMapErr_None (m : gmap string value) :
  marshalMapErr m = None ↔ ∀ k v, m !! k = Some v → marshalErr v = None.
Proof.
  unfold marshalMapErr, sortedEntries.
  rewrite firstErr_None, Forall_fmap, merge_sort_Permutation, Forall_forall.
  split.
  - intros H k v Hk. by apply (H (k, v)), elem_of_map_to_list.
  - intros H [k v] Hkv. simpl. by apply (H k), elem_of_map_to_list.
Qed.

Lemma json_Marshal_settings (m : gmap string value) :
  json_Marshal (BodySettings m)
  = match marshalMapErr m with
    | Some err => inl err
    | None => inr (BodySettings m)
    end.
Proof. reflexivity. Qed.

Lemma shrinkSettings_eq (settings : gmap string value) :
  shrinkSettings settings
  = <["index.blocks.write" := VBool true]>
      (<["index.number_of_replicas" := VInt 0]>
         (<["index.number_of_shards" := index settings "number_of_shards"]> settings)).
Proof.
  unfold shrinkSettings. rewrite mergeSettings_union.
  by rewrite <- !insert_union_l, <- insert_union_singleton_l.
Qed.

Lemma marshalErr_index (settings : gmap string value) k :
  (∀ k v, settings !! k = Some v → marshalErr v = None) →
  marshalErr (index settings k) = None.
Proof.
  intros H. unfold index. destruct (settings !! k) as [v|] eqn:Hk; [|done].
  by apply (H k).
Qed.

Lemma shrinkSettings_encodes (settings : gmap string value) :
  (∀ k v, settings !! k = Some v → marshalErr v = None) →
  marshalMapErr (shrinkSettings settings) = None.
Proof.
  rewrite marshalMapErr_None, shrinkSettings_eq.
  intros H k v.
  rewrite !lookup_insert. repeat case_decide; intros ?; simplify_eq; try done.
  - by apply marshalErr_index.
  - by apply (H k).
Qed.

(** What encodes in the shrink request encodes in the final one: the key
    [number_of_replicas] is not among the overridden ones. *)
Lemma finalSettings_encodes (settings : gmap string value) :
  marshalMapErr (shrinkSettings settings) = None →
  marshalMapErr (finalSettings settings) = None.
Proof.
  rewrite !marshalMapErr_None, shrinkSettings_eq. intros H k v.
  unfold finalSettings. rewrite lookup_insert. case_decide.
  - intros ?; simplify_eq. unfold index.
    destruct (settings !! "number_of_replicas") as [v|] eqn:Hk; [|done].
    apply (H "number_of_replicas"). by rewrite !lookup_insert_ne.
  - rewrite lookup_singleton. case_decide; intros ?; by simplify_eq.
Qed.

(** *** The single-index operations *)

Lemma OpenIndex_eq indexName w :
  OpenIndex net c indexName w
  = (checkStatus "failed to open index" (net w (openRequest c indexName)).1,
     after net w (openRequest c indexName)).
Proof. unfold OpenIndex, mbind, M_bind. by rewrite doRequest_eq. Qed.

Lemma UpdateIndexSettings_eq indexName settings w :
  UpdateIndexSettings net c indexName settings w
  = match marshalMapErr settings with
    | Some err => (Some err, w)
    | None =>
        (checkStatus "failed to update settings"
           (net w (settingsRequest c indexName settings)).1,
         after net w (settingsRequest c indexName settings))
    end.
Proof.
  unfold UpdateIndexSettings. rewrite json_Marshal_settings.
  destruct (marshalMapErr settings); [done|].
  unfold mbind, M_bind. by rewrite doRequest_eq.
Qed.

(** Every operation that checks the status reports the body of a response
    with status 400 or more, behind its own prefix. *)
Lemma checkStatus_failure what resp :
  400 ≤ StatusCode resp →
  checkStatus what (inr resp) = Some (what +:+ ": " +:+ Body resp).
Proof. intros H. simpl. by rewrite (proj2 (Z.leb_le _ _) H). Qed.

(** X15.  The operations that send one document: a response with status 400 or
    more to their request makes them fail with its body. *)
Lemma documents_report_the_body w resp :
  400 ≤ StatusCode resp →
  (∀ actions, json_Marshal (BodyActions actions) = inr (BodyActions actions) →
     (net w (newRequest c "POST" "/_aliases" (Some (BodyActions actions)))).1 = inr resp →
     (ManageAliases net c actions w).1
     = Some ("failed to manage aliases: " +:+ Body resp))
  ∧ (∀ alias conditions,
       json_Marshal (BodyConditions conditions) = inr (BodyConditions conditions) →
       (net w (newRequest c "POST" ("/" +:+ alias +:+ "/_rollover")
                 (Some (BodyConditions conditions)))).1 = inr resp →
       (Rollover net c alias conditions w).1
       = Some ("failed to rollover index: " +:+ Body resp))
  ∧ (∀ source dest query,
       json_Marshal (BodyReindex source dest query) = inr (BodyReindex source dest query) →
       (net w (newRequest c "POST" "/_reindex"
                 (Some (BodyReindex source dest query)))).1 = inr resp →
       (Reindex net c source dest query w).1 = Some ("failed to reindex: " +:+ Body resp))
  ∧ (∀ indexName settings,
       marshalMapErr settings = None →
       (net w (settingsRequest c indexName settings)).1 = inr resp →
       (UpdateIndexSettings net c indexName settings w).1
       = Some ("failed to update settings: " +:+ Body resp))
  ∧ (∀ indexName,
       (net w (openRequest c indexName)).1 = inr resp →
       (OpenIndex net c indexName w).1 = Some ("failed to open index: " +:+ Body resp)).
Proof.
  intros Hst. split_and!.
  - intros actions Henc Hnet. unfold ManageAliases. rewrite Henc.
    unfold mbind, M_bind. rewrite doRequest_eq, Hnet. by apply checkStatus_failure.
  - intros alias conditions Henc Hnet. unfold Rollover. rewrite Henc.
    unfold mbind, M_bind. rewrite doRequest_eq, Hnet. by apply checkStatus_failure.
  - intros source dest query Henc Hnet. unfold Reindex. rewrite Henc.
    unfold mbind, M_bind. rewrite doRequest_eq, Hnet. by apply checkStatus_failure.
  - intros indexName settings Henc Hnet.
    rewrite UpdateIndexSettings_eq, Henc. cbn [fst]. rewrite Hnet.
    by apply checkStatus_failure.
  - intros indexName Hnet. rewrite OpenIndex_eq. cbn [fst]. rewrite Hnet.
    by apply checkStatus_failure.
Qed.

(** X16.  The bulk operations: after a listing that selects something, a response
    with status 400 or more to the bulk request makes them fail with its
    body. *)
Lemma bulk_operations_report_the_body w indices w1 resp :
  ListIndices lib net c w = (inr indices, w1) →
  400 ≤ StatusCode resp →
  (∀ indexPattern,
     matched lib indexPattern indices ≠ [] →
     (net w1 (deleteRequest c (matched lib indexPattern indices))).1 = inr resp →
     (DeleteIndices lib net c indexPattern w).1
     = Some ("failed to delete indices: " +:+ Body resp))
  ∧ (∀ indexPattern,
       matched lib indexPattern indices ≠ [] →
       (net w1 (closeRequest c (matched lib indexPattern indices))).1 = inr resp →
       (CloseIndices lib net c indexPattern w).1
       = Some ("failed to close indices: " +:+ Body resp))
  ∧ (∀ indexPrefix days,
       let names := expired indexPrefix (AddDate_days lib (now w) (int_neg days)) indices in
       names ≠ [] →
       (net w1 (deleteRequest c names)).1 = inr resp →
       (CleanupByAge lib net c indexPrefix days w).1
       = Some ("failed to delete old indices: " +:+ Body resp)).
Proof.
  intros Hlist Hst. split_and!.
  - intros indexPattern Hne Hnet. rewrite DeleteIndices_eq, Hlist.
    destruct (matched lib indexPattern indices); [done|].
    cbn [fst]. rewrite Hnet. by apply checkStatus_failure.
  - intros indexPattern Hne Hnet. rewrite CloseIndices_eq, Hlist.
    destruct (matched lib indexPattern indices); [done|].
    cbn [fst]. rewrite Hnet. by apply checkStatus_failure.
  - intros indexPrefix days names Hne Hnet. rewrite CleanupByAge_eq, Hlist.
    fold names. destruct names; [done|].
    cbn [fst]. rewrite Hnet. by apply checkStatus_failure.
Qed.

(** *** [CloseIndices] and [ShrinkIndex] *)

Lemma CloseIndices_log indexPattern w e w1 :
  CloseIndices lib net c indexPattern w = (e, w1) →
  (is_Some e ∧ log w1 = (log w ++ [listRequest c])%list)
  ∨ (∃ indices, ListIndices lib net c w = (inr indices, after net w (listRequest c))
       ∧ matched lib indexPattern indices ≠ []
       ∧ log w1 = (log w ++ [listRequest c;
                             closeRequest c (matched lib indexPattern indices)])%list).
Proof.
  rewrite CloseIndices_eq.
  destruct (ListIndices lib net c w) as [[err|indices] w0] eqn:Hlist;
    pose proof (ListIndices_world _ _ _ Hlist) as ->.
  - intros [= <- <-]. left. eauto.
  - destruct (matched lib indexPattern indices) as [|n names] eqn:Hm.
    + intros [= <- <-]. left. eauto.
    + intros [= <- <-]. right. exists indices. rewrite Hm.
      split_and!; [done..|]. simpl. by rewrite <- app_assoc.
Qed.

Lemma ShrinkIndex_eq source target settings w :
  ShrinkIndex lib net c source target settings w =
    match CloseIndices lib net c source w with
    | (Some err, w1) => (Some ("failed to close source index: " +:+ err), w1)
    | (None, w1) =>
    match marshalMapErr (shrinkSettings settings) with
    | Some err => (Some ("failed to marshal shrink settings: " +:+ err), w1)
    | None =>
    let w2 := after net w1 (shrinkRequest c source target settings) in
    match (net w1 (shrinkRequest c source target settings)).1 with
    | inl err => (Some ("failed to execute shrink request: " +:+ err), w2)
    | inr resp =>
    if 400 <=? StatusCode resp
    then (Some ("shrink failed with status " +:+ fmt_d (StatusCode resp)
                  +:+ ": " +:+ Body resp), w2)
    else
    let w3 := after net w2 (openRequest c source) in
    match checkStatus "failed to open index" (net w2 (openRequest c source)).1 with
    | Some err => (Some ("failed to reopen source index: " +:+ err), w3)
    | None =>
    let w4 := after net w3 (openRequest c target) in
    match checkStatus "failed to open index" (net w3 (openRequest c target)).1 with
    | Some err => (Some ("failed to open target index: " +:+ err), w4)
    | None =>
    match UpdateIndexSettings net c target (finalSettings settings) w4 with
    | (Some err, w5) => (Some ("failed to apply final settings: " +:+ err), w5)
    | (None, w5) => (None, w5)
    end end end end end end.
Proof.
  unfold ShrinkIndex. unfold mbind at 1. unfold M_bind at 1.
  destruct (CloseIndices lib net c source w) as [[err|] w1]; [done|].
  rewrite json_Marshal_settings.
  destruct (marshalMapErr (shrinkSettings settings)); [done|].
  unfold mbind at 1. unfold M_bind at 1. rewrite doRequest_eq.
  fold (shrinkRequest c source target settings). cbn [fst snd].
  destruct (net w1 (shrinkRequest c source target settings)).1 as [err|resp]; [done|].
  destruct (400 <=? StatusCode resp); [done|].
  unfold mbind at 1. unfold M_bind at 1. rewrite OpenIndex_eq.
  destruct (checkStatus _ (net _ (openRequest c source)).1); [done|].
  unfold mbind at 1. unfold M_bind at 1. rewrite OpenIndex_eq.
  destruct (checkStatus _ (net _ (openRequest c target)).1); [done|].
  unfold mbind at 1. unfold M_bind at 1.
  by destruct (UpdateIndexSettings net c target (finalSettings settings) _) as [[?|] ?].
Qed.

(** Once the source is closed, the run is one of the seven of [ShrinkRun]. *)
Lemma ShrinkIndex_run source target settings w w1 res w' :
  CloseIndices lib net c source w = (None, w1) →
  ShrinkIndex lib net c source target settings w = (res, w') →
  ∃ trace, ShrinkRun c source target settings res trace
           ∧ log w' = (log w1 ++ trace)%list.
Proof.
  intros Hclose. rewrite ShrinkIndex_eq, Hclose.
  destruct (marshalMapErr (shrinkSettings settings)) as [err|] eqn:Henc.
  { intros [= <- <-]. eexists. split; [by constructor|]. by rewrite app_nil_r. }
  cbv zeta.
  destruct (net w1 (shrinkRequest c source target settings)).1 as [err|resp].
  { intros [= <- <-]. eexists. split; [constructor|done]. }
  destruct (400 <=? StatusCode resp) eqn:Hst.
  { intros [= <- <-]. eexists. split; [constructor; lia|done]. }
  destruct (checkStatus _ (net _ (openRequest c source)).1) as [err|].
  { intros [= <- <-]. eexists. split; [constructor|]. simpl. by rewrite <- !app_assoc. }
  destruct (checkStatus _ (net _ (openRequest c target)).1) as [err|].
  { intros [= <- <-]. eexists. split; [constructor|]. simpl. by rewrite <- !app_assoc. }
  rewrite UpdateIndexSettings_eq, (finalSettings_encodes _ Henc).
  destruct (checkStatus _ _) as [err|];
    intros [= <- <-]; (eexists; split; [constructor|]); simpl; by rewrite <- !app_assoc.
Qed.

(** Two errors of [ShrinkIndex] with different step prefixes are different. *)
Ltac other_step H := exfalso; cbn in H; discriminate H.


(** C3: the settings [ShrinkIndex] submits with the shrink request are the
    caller's with three keys overridden: [index.blocks.write] is true,
    [index.number_of_replicas] is 0 and [index.number_of_shards] is the
    caller's value at [number_of_shards]; every other key keeps the caller's
    value, and what the caller gave for the three keys is lost. *)
Theorem shrink_request_settings source target settings w w1 :
  CloseIndices lib net c source w = (None, w1) →
  marshalMapErr (shrinkSettings settings) = None →
  let body : gmap string value :=
    <["index.blocks.write" := VBool true]>
      (<["index.number_of_replicas" := VInt 0]>
         (<["index.number_of_shards" := default VNil (settings !! "number_of_shards")]>
            settings)) in
  (∃ rest,
     log (ShrinkIndex lib net c source target settings w).2
     = (log w1 ++ newRequest c "POST" ("/" +:+ source +:+ "/_shrink/" +:+ target)
                    (Some (BodySettings body)) :: rest)%list)
  ∧ body !! "index.blocks.write" = Some (VBool true)
  ∧ body !! "index.number_of_replicas" = Some (VInt 0)
  ∧ body !! "index.number_of_shards"
    = Some (default VNil (settings !! "number_of_shards"))
  ∧ (∀ k, k ≠ "index.blocks.write" → k ≠ "index.number_of_replicas" →
          k ≠ "index.number_of_shards" → body !! k = settings !! k).
Proof.
  intros Hclose Henc body. split; [|split_and!].
  - destruct (ShrinkIndex lib net c source target settings w) as [res w'] eqn:Hrun.
    cbn [snd].
    destruct (ShrinkIndex_run _ _ _ _ _ _ _ Hclose Hrun) as (trace & Htrace & ->).
    destruct Htrace as [err Herr| | | | | |];
      [rewrite Henc in Herr; discriminate Herr|..];
      unfold shrinkRequest; rewrite shrinkSettings_eq; eexists; reflexivity.
  - apply lookup_insert_eq.
  - unfold body. rewrite lookup_insert_ne by (intros [=]). apply lookup_insert_eq.
  - unfold body. rewrite !lookup_insert_ne by (intros [=]). apply lookup_insert_eq.
  - intros k ? ? ?. unfold body. by rewrite !lookup_insert_ne.
Qed.

(** C7: when [ShrinkIndex] gets as far as its last step, the last request it
    issues is the settings update of the target, in which
    [index.number_of_replicas] is the caller's value at [number_of_replicas],
    as given, and [index.blocks.write] is null. *)
Theorem final_settings_round_trip source target settings w res w' :
  ShrinkIndex lib net c source target settings w = (res, w') →
  res = None ∨ (∃ err, res = Some ("failed to apply final settings: " +:+ err)) →
  ∃ earlier,
    log w'
    = (earlier ++
       [newRequest c "PUT" ("/" +:+ target +:+ "/_settings")
          (Some (BodySettings
                   {[ "index.number_of_replicas" :=
                        default VNil (settings !! "number_of_replicas");
                      "index.blocks.write" := VNil ]}))])%list.
Proof.
  intros Hrun Hres.
  destruct (CloseIndices lib net c source w) as [[e|] w1] eqn:Hclose.
  { rewrite ShrinkIndex_eq, Hclose in Hrun. injection Hrun as <- <-.
    destruct Hres as [Hres|[? Hres]]; other_step Hres. }
  destruct (ShrinkIndex_run _ _ _ _ _ _ _ Hclose Hrun) as (trace & Htrace & ->).
  destruct Htrace as [err Herr| | | | | |];
    try (destruct Hres as [Hres|[? Hres]]; other_step Hres);
    exists (log w1 ++ [shrinkRequest c source target settings;
                       openRequest c source; openRequest c target])%list;
    rewrite <- app_assoc; reflexivity.
Qed.

(** C10: [ShrinkIndex] closes the source by pattern.  When no listed name
    matches [source] as a pattern it fails with the wrapped no-match error
    after the listing request alone; otherwise its one close request names
    every listed index that matches, and the requests that follow are the
    shrink, the two opens and the settings update, or a prefix of them. *)
Theorem shrink_closes_by_pattern source target settings w indices w1 :
  ListIndices lib net c w = (inr indices, w1) →
  (matched lib source indices = [] →
     ShrinkIndex lib net c source target settings w
     = (Some ("failed to close source index: "
                +:+ "no indices match pattern: " +:+ source), w1)
     ∧ log w1 = (log w ++ [listRequest c])%list)
  ∧ (matched lib source indices ≠ [] →
     ∃ rest,
       log (ShrinkIndex lib net c source target settings w).2
       = (log w ++ [listRequest c;
                    newRequest c "POST"
                      ("/" +:+ Join (matched lib source indices) "," +:+ "/_close")
                      None] ++ rest)%list
       ∧ rest `prefix_of` [shrinkRequest c source target settings;
                           openRequest c source; openRequest c target;
                           settingsRequest c target (finalSettings settings)]).
Proof.
  intros Hlist. pose proof (ListIndices_world _ _ _ Hlist) as Hw1. split.
  - intros Hnone. rewrite ShrinkIndex_eq, CloseIndices_eq, Hlist, Hnone.
    by rewrite Hw1.
  - intros Hsome.
    destruct (CloseIndices lib net c source w) as [[e|] w2] eqn:Hclose.
    + rewrite ShrinkIndex_eq, Hclose. cbn [snd].
      rewrite CloseIndices_eq, Hlist in Hclose.
      destruct (matched lib source indices) as [|n names] eqn:Hm; [done|].
      injection Hclose as _ <-. exists []. split; [|by apply prefix_nil].
      rewrite Hw1. simpl. by rewrite <- app_assoc.
    + destruct (ShrinkIndex lib net c source target settings w) as [res w'] eqn:Hrun.
      cbn [snd].
      destruct (ShrinkIndex_run _ _ _ _ _ _ _ Hclose Hrun) as (trace & Htrace & ->).
      rewrite CloseIndices_eq, Hlist in Hclose.
      destruct (matched lib source indices) as [|n names] eqn:Hm; [done|].
      injection Hclose as _ <-. exists trace. split.
      * rewrite Hw1. simpl. by rewrite <- !app_assoc.
      * destruct Htrace as [err Herr| | | | | |];
          (apply prefix_nil) || (eexists; reflexivity).
Qed.

End Facts.

(** * The client on the reference runtime *)

Section Examples.

Import Reference Scenario.

(** C1 at a failing input: the catalog request is answered with status 500
    and the body [[]], and [ListIndices] returns an empty list and no error;
    [DeleteIndices] then reports that nothing matches instead of the failure
    of the cluster.  [ListIndices] never reads the status of the response. *)
Theorem ListIndices_ignores_the_status :
  (ListIndices lib (scripted [status 500 "[]"]) client w0).1 = inr []
  ∧ (DeleteIndices lib (scripted [status 500 "[]"]) client "logs-*" w0).1
    = Some "no indices match pattern: logs-*"
  ∧ (∀ (rt : GoLib) (code code' : Z) (body : string),
       decodeIndices rt {| StatusCode := code; Body := body |}
       = decodeIndices rt {| StatusCode := code'; Body := body |}).
Proof. split_and!; [vm_compute; reflexivity..|reflexivity]. Qed.



(** The shrink request of a run that goes through. *)
Lemma shrink_request_settings_witness :
  let w1 := (CloseIndices lib healthy client "logs-2023-01-01" w0).2 in
  let body : gmap string value :=
    <["index.blocks.write" := VBool true]>
      (<["index.number_of_replicas" := VInt 0]>
         (<["index.number_of_shards" := default VNil (settings !! "number_of_shards")]>
            settings)) in
  (∃ rest,
     log (ShrinkIndex lib healthy client "logs-2023-01-01" target settings w0).2
     = (log w1 ++ newRequest client "POST"
                    ("/" +:+ "logs-2023-01-01" +:+ "/_shrink/" +:+ target)
                    (Some (BodySettings body)) :: rest)%list)
  ∧ body !! "index.blocks.write" = Some (VBool true)
  ∧ body !! "index.number_of_replicas" = Some (VInt 0)
  ∧ body !! "index.number_of_shards"
    = Some (default VNil (settings !! "number_of_shards"))
  ∧ (∀ k, k ≠ "index.blocks.write" → k ≠ "index.number_of_replicas" →
          k ≠ "index.number_of_shards" → body !! k = settings !! k).
Proof.
  apply (shrink_request_settings lib healthy client "logs-2023-01-01" target settings w0).
  - vm_compute. reflexivity.
  - vm_compute. reflexivity.
Defined.

(** The last request of a run that goes through. *)
Lemma final_settings_round_trip_witness :
  let run := ShrinkIndex lib healthy client "logs-2023-01-01" target settings w0 in
  ∃ earlier,
    log run.2
    = (earlier ++
       [newRequest client "PUT" ("/" +:+ target +:+ "/_settings")
          (Some (BodySettings
                   {[ "index.number_of_replicas" :=
                        default VNil (settings !! "number_of_replicas");
                      "index.blocks.write" := VNil ]}))])%list.
Proof.
  intros run.
  apply (final_settings_round_trip lib healthy client "logs-2023-01-01" target
           settings w0 run.1 run.2 (surjective_pairing run)).
  left. vm_compute. reflexivity.
Defined.

(** No index of the catalog is a metrics index. *)
Lemma no_match_witness :
  let w1 := after healthy w0 (listRequest client) in
  DeleteIndices lib healthy client "metrics-*" w0
    = (Some ("no indices match pattern: " +:+ "metrics-*"), w1)
  ∧ CloseIndices lib healthy client "metrics-*" w0
    = (Some ("no indices match pattern: " +:+ "metrics-*"), w1)
  ∧ log w1 = (log w0 ++ [listRequest client])%list.
Proof.
  apply (no_match_is_an_error lib healthy client "metrics-*" w0 indices).
  - vm_compute. reflexivity.
  - repeat constructor.
Defined.

(** Two indices of the catalog match, and are named in listing order. *)
Lemma one_bulk_request_witness :
  matched lib "logs-2023-0?-01" indices = ["logs-2023-01-01"; "logs-2023-02-01"]
  ∧ log (DeleteIndices lib healthy client "logs-2023-0?-01" w0).2
    = (log w0 ++ [listRequest client;
                  newRequest client "DELETE"
                    ("/" +:+ Join (matched lib "logs-2023-0?-01" indices) ",") None])%list
  ∧ log (CloseIndices lib healthy client "logs-2023-0?-01" w0).2
    = (log w0 ++ [listRequest client;
                  newRequest client "POST"
                    ("/" +:+ Join (matched lib "logs-2023-0?-01" indices) ","
                         +:+ "/_close") None])%list.
Proof.
  split; [vm_compute; reflexivity|].
  apply (one_bulk_request lib healthy client "logs-2023-0?-01" w0 indices
           (after healthy w0 (listRequest client))).
  - vm_compute. reflexivity.
  - vm_compute. discriminate.
Defined.

(** The retention example of the specification, started on 2023-02-10: of
    the indices created 40 days, 5 days and 40 days before, only the first
    carries the prefix and is old enough; the index created at the instant of
    the cutoff is kept, although the listing takes an hour. *)
Lemma cleanup_by_age_witness :
  let cutoff := (parseTime "2023-01-11T00:00:00Z").1 in
  AddDate_days lib (now w0) (int_neg 30) = cutoff
  ∧ log (CleanupByAge lib healthy client "logs-" 30 w0).2
    = (log w0 ++ [listRequest client;
                  newRequest client "DELETE" ("/" +:+ Join ["logs-2023-01-01"] ",")
                    None])%list
  ∧ (CleanupByAge lib healthy client "metrics-" 30 w0
     = (None, after healthy w0 (listRequest client))
     ∧ log (after healthy w0 (listRequest client))
       = (log w0 ++ [listRequest client])%list).
Proof.
  split; [vm_compute; reflexivity|]. split.
  - apply (proj2 (cleanup_by_age lib healthy client "logs-" 30 w0 indices
                    (after healthy w0 (listRequest client)) eq_refl)).
    vm_compute. discriminate.
  - apply (proj1 (cleanup_by_age lib healthy client "metrics-" 30 w0 indices
                    (after healthy w0 (listRequest client)) eq_refl)).
    vm_compute. reflexivity.
Defined.

(** C9 as stated fails: a document count one past the int64 range does not
    parse, and the [DocsCount] decoded from it is the largest int64, not 0. *)
Lemma docs_count_out_of_range :
  let net := scripted [ok (render untidy)] in
  json_Decode lib (render untidy) = inr untidy
  ∧ (strconv.ParseInt "9223372036854775808").2 = Some strconv.ErrRange
  ∧ (ListIndices lib net client w0).1
    = inr [ {| Name := "a"; Status := "open"; DocsCount := 12; StoreSize := "1kb";
               CreateTime := (parseTime "2023-01-01T00:00:00Z").1 |};
            {| Name := "b"; Status := "close"; DocsCount := 0; StoreSize := "";
               CreateTime := zeroTime |};
            {| Name := "c"; Status := "open"; DocsCount := 9223372036854775807;
               StoreSize := "8eb"; CreateTime := zeroTime |} ].
Proof. split_and!; vm_compute; reflexivity. Qed.

(** The untidy catalog, record by record. *)
Lemma list_indices_decoding_witness :
  let net := scripted [ok (render untidy)] in
  ListIndices lib net client w0
    = (inr (toIndexInfo lib <$> untidy), after net w0 (listRequest client))
  ∧ (∀ r, let s := Cat.DocsCount r in
          (isDecimal (unsignedPart s) = true →
           - 2 ^ 63 ≤ signedValue s ≤ 2 ^ 63 - 1 →
           (strconv.ParseInt s).2 = None
           ∧ DocsCount (toIndexInfo lib r) = signedValue s)
          ∧ (isDecimal (unsignedPart s) = true →
             2 ^ 63 - 1 < signedValue s →
             (strconv.ParseInt s).2 = Some strconv.ErrRange
             ∧ DocsCount (toIndexInfo lib r) = 2 ^ 63 - 1)
          ∧ (isDecimal (unsignedPart s) = true →
             signedValue s < - 2 ^ 63 →
             (strconv.ParseInt s).2 = Some strconv.ErrRange
             ∧ DocsCount (toIndexInfo lib r) = - 2 ^ 63)
          ∧ (isDecimal (unsignedPart s) = false →
             leadingValue (unsignedPart s) ≤ 2 ^ 64 - 1 →
             (strconv.ParseInt s).2 = Some strconv.ErrSyntax
             ∧ DocsCount (toIndexInfo lib r) = 0)
          ∧ (isDecimal (unsignedPart s) = false →
             2 ^ 64 - 1 < leadingValue (unsignedPart s) →
             (strconv.ParseInt s).2 = Some strconv.ErrRange
             ∧ DocsCount (toIndexInfo lib r) = int64Bound (minus s)))
  ∧ (∀ r, is_Some (time_Parse lib (Cat.CreateTime r)).2 →
          CreateTime (toIndexInfo lib r) = zeroTime)
  ∧ (untidy = [] → (ListIndices lib net client w0).1 = inr []).
Proof.
  intros net.
  apply (list_indices_decoding lib net client w0
           {| StatusCode := 200; Body := render untidy |} (now w0) untidy).
  - vm_compute. reflexivity.
  - vm_compute. reflexivity.
Defined.

(** One text for each way a document count is read, with the count decoded
    from it: the smallest int64, a number with a plus sign, no text at all, a
    lone sign, a number with a trailing letter, the two numbers next to the
    int64 range, digits past the largest uint64 before a letter, with and
    without a minus, and the largest uint64 before a letter. *)
Lemma document_counts_case_by_case :
  (isDecimal (unsignedPart "-9223372036854775808") = true
   ∧ signedValue "-9223372036854775808" = - 2 ^ 63
   ∧ counted "-9223372036854775808" = - 2 ^ 63)
  ∧ (isDecimal (unsignedPart "+12") = true ∧ counted "+12" = 12)
  ∧ (isDecimal (unsignedPart "") = false ∧ counted "" = 0)
  ∧ (isDecimal (unsignedPart "-") = false ∧ counted "-" = 0)
  ∧ (isDecimal (unsignedPart "12k") = false
     ∧ leadingValue (unsignedPart "12k") = 12 ∧ counted "12k" = 0)
  ∧ (isDecimal (unsignedPart "9223372036854775808") = true
     ∧ signedValue "9223372036854775808" = 2 ^ 63
     ∧ counted "9223372036854775808" = 2 ^ 63 - 1)
  ∧ (isDecimal (unsignedPart "-9223372036854775809") = true
     ∧ signedValue "-9223372036854775809" = - 2 ^ 63 - 1
     ∧ counted "-9223372036854775809" = - 2 ^ 63)
  ∧ (isDecimal (unsignedPart "99999999999999999999x") = false
     ∧ leadingValue (unsignedPart "99999999999999999999x") = 99999999999999999999
     ∧ counted "99999999999999999999x" = 2 ^ 63 - 1)
  ∧ (isDecimal (unsignedPart "-99999999999999999999x") = false
     ∧ minus "-99999999999999999999x" = true
     ∧ counted "-99999999999999999999x" = - 2 ^ 63)
  ∧ (isDecimal (unsignedPart "18446744073709551615x") = false
     ∧ leadingValue (unsignedPart "18446744073709551615x") = 2 ^ 64 - 1
     ∧ counted "18446744073709551615x" = 0).
Proof. split_and!; vm_compute; reflexivity. Qed.

(** The source of [exemplo2] is not in the catalog; a source with a star
    closes the three indices it matches in one request. *)
Lemma shrink_closes_by_pattern_witness :
  matched lib "logs-2023-0*" indices
    = ["logs-2023-01-01"; "logs-2023-02-01"; "logs-2023-01-11"]
  ∧ (ShrinkIndex lib healthy client source target settings w0
     = (Some ("failed to close source index: "
                +:+ "no indices match pattern: " +:+ source),
        after healthy w0 (listRequest client))
     ∧ log (after healthy w0 (listRequest client))
       = (log w0 ++ [listRequest client])%list)
  ∧ (∃ rest,
       log (ShrinkIndex lib healthy client "logs-2023-0*" target settings w0).2
       = (log w0 ++ [listRequest client;
                     newRequest client "POST"
                       ("/" +:+ Join (matched lib "logs-2023-0*" indices) ","
                            +:+ "/_close")
                       None] ++ rest)%list
       ∧ rest `prefix_of` [shrinkRequest client "logs-2023-0*" target settings;
                           openRequest client "logs-2023-0*";
                           openRequest client target;
                           settingsRequest client target (finalSettings settings)]).
Proof.
  split; [vm_compute; reflexivity|]. split.
  - apply (proj1 (shrink_closes_by_pattern lib healthy client source target settings
                    w0 indices (after healthy w0 (listRequest client)) eq_refl)).
    vm_compute. reflexivity.
  - apply (proj2 (shrink_closes_by_pattern lib healthy client "logs-2023-0*" target
                    settings w0 indices (after healthy w0 (listRequest client)) eq_refl)).
    vm_compute. discriminate.
Defined.

End Examples.

(** * Further properties *)

(** ** Provenance and number of the requests *)

Section Sends.

Variable lib : GoLib.
Variable net : Transport.
Variable c : Client.

Lemma prefix_append (s t : string) : String.prefix s (s +:+ t) = true.
Proof.
  induction s as [|a s IH]; simpl.
  - by destruct t.
  - by destruct (ascii_dec a a).
Qed.

Lemma fromClient_newRequest method path body :
  fromClient c (newRequest c method path body).
Proof. unfold fromClient, newRequest. simpl. split_and!; [done..|apply prefix_append]. Qed.

Lemma sends_ret {A} (a : A) : sends c 0 (mret a).
Proof. intros w. exists []. simpl. by rewrite app_nil_r. Qed.

Lemma sends_mono {A} (m : M A) n n' : (n ≤ n')%nat → sends c n m → sends c n' m.
Proof.
  intros Hle Hm w. destruct (Hm w) as (reqs & ? & ? & ?).
  exists reqs. split_and!; [done|lia|done].
Qed.

Lemma sends_bind {A B} (m : M A) (k : A → M B) n1 n2 :
  sends c n1 m → (∀ a, sends c n2 (k a)) → sends c (n1 + n2) (m ≫= k).
Proof.
  intros Hm Hk w. unfold mbind, M_bind.
  destruct (Hm w) as (r1 & E1 & L1 & F1).
  destruct (m w) as [a w1]. simpl in E1.
  destruct (Hk a w1) as (r2 & E2 & L2 & F2).
  exists (r1 ++ r2)%list. split_and!.
  - by rewrite E2, E1, app_assoc.
  - rewrite length_app. lia.
  - by apply Forall_app.
Qed.

Lemma sends_doRequest method path body :
  sends c 1 (doRequest net c method path body).
Proof.
  intros w. rewrite doRequest_eq. eexists [_]. simpl.
  split_and!; [done|lia|]. repeat constructor; apply fromClient_newRequest.
Qed.

(** One step of an operation: a [doRequest], a return, a bind, a branch. *)
Ltac sends_step :=
  match goal with
  | |- sends _ _ (mret _) => eapply sends_mono; [|apply sends_ret]; lia
  | |- sends _ _ (doRequest _ _ _ _ _) => eapply sends_mono; [|apply sends_doRequest]; lia
  | |- sends _ _ (match ?x with _ => _ end) => destruct x
  | |- sends _ _ (if ?x then _ else _) => destruct x
  end.

Lemma sends_ListIndices : sends c 1 (ListIndices lib net c).
Proof.
  unfold ListIndices. apply (sends_bind _ _ 1 0); [apply sends_doRequest|].
  intros ?. repeat sends_step.
Qed.

Lemma sends_DeleteIndices indexPattern :
  sends c 2 (DeleteIndices lib net c indexPattern).
Proof.
  unfold DeleteIndices. apply (sends_bind _ _ 1 1); [apply sends_ListIndices|].
  intros ?. repeat sends_step.
  apply (sends_bind _ _ 1 0); [apply sends_doRequest|]. intros ?. sends_step.
Qed.

Lemma sends_CloseIndices indexPattern :
  sends c 2 (CloseIndices lib net c indexPattern).
Proof.
  unfold CloseIndices. apply (sends_bind _ _ 1 1); [apply sends_ListIndices|].
  intros ?. repeat sends_step.
  apply (sends_bind _ _ 1 0); [apply sends_doRequest|]. intros ?. sends_step.
Qed.

Lemma sends_CleanupByAge indexPrefix days :
  sends c 2 (CleanupByAge lib net c indexPrefix days).
Proof.
  unfold CleanupByAge. apply (sends_bind _ _ 0 2).
  { intros w. exists []. simpl. by rewrite app_nil_r. }
  intros ?. apply (sends_bind _ _ 1 1); [apply sends_ListIndices|].
  intros ?. repeat sends_step.
  apply (sends_bind _ _ 1 0); [apply sends_doRequest|]. intros ?. sends_step.
Qed.

Lemma sends_ManageAliases actions : sends c 1 (ManageAliases net c actions).
Proof.
  unfold ManageAliases. repeat sends_step.
  apply (sends_bind _ _ 1 0); [apply sends_doRequest|]. intros ?. sends_step.
Qed.

Lemma sends_Rollover alias conditions : sends c 1 (Rollover net c alias conditions).
Proof.
  unfold Rollover. repeat sends_step.
  apply (sends_bind _ _ 1 0); [apply sends_doRequest|]. intros ?. sends_step.
Qed.

Lemma sends_Reindex source dest query : sends c 1 (Reindex net c source dest query).
Proof.
  unfold Reindex. repeat sends_step.
  apply (sends_bind _ _ 1 0); [apply sends_doRequest|]. intros ?. sends_step.
Qed.

Lemma sends_OpenIndex indexName : sends c 1 (OpenIndex net c indexName).
Proof.
  unfold OpenIndex.
  apply (sends_bind _ _ 1 0); [apply sends_doRequest|]. intros ?. sends_step.
Qed.

Lemma sends_UpdateIndexSettings indexName settings :
  sends c 1 (UpdateIndexSettings net c indexName settings).
Proof.
  unfold UpdateIndexSettings. repeat sends_step.
  apply (sends_bind _ _ 1 0); [apply sends_doRequest|]. intros ?. sends_step.
Qed.

Lemma sends_ShrinkIndex source target settings :
  sends c 6 (ShrinkIndex lib net c source target settings).
Proof.
  unfold ShrinkIndex.
  apply (sends_bind _ _ 2 4); [apply sends_CloseIndices|]. intros ?.
  repeat sends_step.
  apply (sends_bind _ _ 1 3); [apply sends_doRequest|]. intros ?.
  repeat sends_step.
  apply (sends_bind _ _ 1 2); [apply sends_OpenIndex|]. intros ?.
  repeat sends_step.
  apply (sends_bind _ _ 1 1); [apply sends_OpenIndex|]. intros ?.
  repeat sends_step.
  apply (sends_bind _ _ 1 0); [apply sends_UpdateIndexSettings|]. intros ?.
  repeat sends_step.
Qed.

End Sends.

Section More.

Variable lib : GoLib.
Variable net : Transport.
Variable c : Client.

(** X1: every operation only appends to the request log, and what it
    appends are requests to the endpoint of the client, with its credentials
    and the JSON content type: at most one by [ListIndices] and by the
    operations on one document or one index, at most two by the bulk
    operations, at most six by [ShrinkIndex].  No request is ever repeated. *)
Theorem operations_send_for_the_client :
  sends c 1 (ListIndices lib net c)
  ∧ (∀ indexPattern, sends c 2 (DeleteIndices lib net c indexPattern))
  ∧ (∀ indexPattern, sends c 2 (CloseIndices lib net c indexPattern))
  ∧ (∀ indexPrefix days, sends c 2 (CleanupByAge lib net c indexPrefix days))
  ∧ (∀ actions, sends c 1 (ManageAliases net c actions))
  ∧ (∀ alias conditions, sends c 1 (Rollover net c alias conditions))
  ∧ (∀ source dest query, sends c 1 (Reindex net c source dest query))
  ∧ (∀ indexName, sends c 1 (OpenIndex net c indexName))
  ∧ (∀ indexName settings, sends c 1 (UpdateIndexSettings net c indexName settings))
  ∧ (∀ source target settings,
       sends c 6 (ShrinkIndex lib net c source target settings)).
Proof.
  split_and!; intros.
  - apply sends_ListIndices.
  - apply sends_DeleteIndices.
  - apply sends_CloseIndices.
  - apply sends_CleanupByAge.
  - apply sends_ManageAliases.
  - apply sends_Rollover.
  - apply sends_Reindex.
  - apply sends_OpenIndex.
  - apply sends_UpdateIndexSettings.
  - apply sends_ShrinkIndex.
Qed.

(** X2: [ListIndices] fails only with the error of the transport or of the
    decoder, as it is; the bulk operations then return that same error
    without a further request, and [ShrinkIndex] returns it behind the prefix
    of its close step. *)
Theorem listing_failure_is_returned w err w1 :
  ListIndices lib net c w = (inl err, w1) →
  ((net w (listRequest c)).1 = inl err
   ∨ ∃ resp, (net w (listRequest c)).1 = inr resp
             ∧ json_Decode lib (Body resp) = inl err)
  ∧ log w1 = (log w ++ [listRequest c])%list
  ∧ (∀ indexPattern, DeleteIndices lib net c indexPattern w = (Some err, w1))
  ∧ (∀ indexPattern, CloseIndices lib net c indexPattern w = (Some err, w1))
  ∧ (∀ indexPrefix days, CleanupByAge lib net c indexPrefix days w = (Some err, w1))
  ∧ (∀ source target settings,
       ShrinkIndex lib net c source target settings w
       = (Some ("failed to close source index: " +:+ err), w1)).
Proof.
  intros Hlist. split_and!.
  - rewrite ListIndices_eq in Hlist. injection Hlist as Hres _.
    destruct (net w (listRequest c)).1 as [e|resp]; [left; congruence|].
    right. exists resp. split; [done|].
    unfold decodeIndices in Hres.
    destruct (json_Decode lib (Body resp)); congruence.
  - by rewrite (ListIndices_world _ _ _ _ _ _ Hlist).
  - intros. by rewrite DeleteIndices_eq, Hlist.
  - intros. by rewrite CloseIndices_eq, Hlist.
  - intros. by rewrite CleanupByAge_eq, Hlist.
  - intros. by rewrite ShrinkIndex_eq, CloseIndices_eq, Hlist.
Qed.

(** *** Documents that do not encode *)

Lemma firstErr_Some l e : firstErr l = Some e → Some e ∈ l.
Proof.
  induction l as [|[e'|] l IH]; simpl; [done| |].
  - intros [= ->]. apply list_elem_of_here.
  - intros H. apply list_elem_of_further. by apply IH.
Qed.

Lemma marshalMapErr_Some (m : gmap string value) :
  is_Some (marshalMapErr m) ↔ ∃ k v, m !! k = Some v ∧ marshalErr v ≠ None.
Proof.
  split.
  - intros [e He]. apply firstErr_Some in He.
    apply list_elem_of_fmap in He as ([k v] & Hv & Hin).
    exists k, v. split; [|simpl in Hv; congruence].
    unfold sortedEntries in Hin. rewrite merge_sort_Permutation in Hin.
    by apply elem_of_map_to_list.
  - intros (k & v & Hk & Hv).
    destruct (marshalMapErr m) as [e|] eqn:He; [by eexists|].
    exfalso. apply Hv. revert He. rewrite marshalMapErr_None. intros He. by apply (He k).
Qed.

Lemma firstErr_is_Some l : (∃ e, Some e ∈ l) → is_Some (firstErr l).
Proof.
  intros [e He]. induction l as [|[e'|] l IH]; simpl.
  - by apply elem_of_nil in He.
  - by eexists.
  - apply IH. apply elem_of_cons in He as [?|?]; [done|done].
Qed.

(** X3: a document with a value [json.Marshal] rejects is never sent.
    [Rollover], [Reindex], [UpdateIndexSettings] and [ManageAliases] then
    return an error and leave the world as it was: no request, not even a
    partial one. *)
Theorem unencodable_value_sends_nothing w (m : gmap string value) k v :
  m !! k = Some v →
  marshalErr v ≠ None →
  (∀ alias, ∃ e, Rollover net c alias m w = (Some e, w))
  ∧ (∀ source dest, ∃ e, Reindex net c source dest m w = (Some e, w))
  ∧ (∀ indexName, ∃ e, UpdateIndexSettings net c indexName m w = (Some e, w))
  ∧ (∀ actions a, a ∈ actions → Add a = m ∨ Remove a = m →
       ∃ e, ManageAliases net c actions w = (Some e, w)).
Proof.
  intros Hk Hv.
  assert (is_Some (marshalMapErr m)) as [e He] by (apply marshalMapErr_Some; eauto).
  split_and!.
  - intros alias. exists e. unfold Rollover, json_Marshal. by rewrite He.
  - intros source dest. exists e. unfold Reindex, json_Marshal. by rewrite He.
  - intros indexName. exists e. by rewrite UpdateIndexSettings_eq, He.
  - intros actions a Ha Hm.
    assert (is_Some (firstErr ((λ a, firstErr [marshalMapErr (Add a);
                                                marshalMapErr (Remove a)]) <$> actions)))
      as [e' He'].
    { apply firstErr_is_Some.
      assert (is_Some (firstErr [marshalMapErr (Add a); marshalMapErr (Remove a)]))
        as [e' He'].
      { destruct Hm as [-> | ->]; simpl; rewrite He; [by eexists|].
        destruct (marshalMapErr (Add a)); by eexists. }
      exists e'. apply list_elem_of_fmap. exists a. by rewrite He'. }
    exists e'. unfold ManageAliases, json_Marshal. by rewrite He'.
Qed.

Lemma firstErr_all_None {A} (f : A → option error) (l : list A) :
  (∀ a, a ∈ l → f a = None) → firstErr (f <$> l) = None.
Proof.
  intros H. apply firstErr_None, Forall_fmap, Forall_forall. intros a Ha. by apply H.
Qed.

(** X4: a document whose values all encode is sent once, as the caller gave
    it: the conditions of [Rollover], the query of [Reindex], the settings of
    [UpdateIndexSettings], and the actions of [ManageAliases] in their order,
    also when there is no action at all. *)
Theorem encodable_document_is_sent_once w (m : gmap string value) :
  (∀ k v, m !! k = Some v → marshalErr v = None) →
  (∀ alias,
     log (Rollover net c alias m w).2
     = (log w ++ [newRequest c "POST" ("/" +:+ alias +:+ "/_rollover")
                    (Some (BodyConditions m))])%list)
  ∧ (∀ source dest,
       log (Reindex net c source dest m w).2
       = (log w ++ [newRequest c "POST" "/_reindex"
                      (Some (BodyReindex source dest m))])%list)
  ∧ (∀ indexName,
       log (UpdateIndexSettings net c indexName m w).2
       = (log w ++ [newRequest c "PUT" ("/" +:+ indexName +:+ "/_settings")
                      (Some (BodySettings m))])%list)
  ∧ (∀ actions,
       (∀ a k v, a ∈ actions → Add a !! k = Some v ∨ Remove a !! k = Some v →
                 marshalErr v = None) →
       log (ManageAliases net c actions w).2
       = (log w ++ [newRequest c "POST" "/_aliases" (Some (BodyActions actions))])%list).
Proof.
  intros Hm. apply marshalMapErr_None in Hm.
  split_and!.
  - intros alias. unfold Rollover, json_Marshal. rewrite Hm.
    unfold mbind, M_bind. by rewrite doRequest_eq.
  - intros source dest. unfold Reindex, json_Marshal. rewrite Hm.
    unfold mbind, M_bind. by rewrite doRequest_eq.
  - intros indexName. by rewrite UpdateIndexSettings_eq, Hm.
  - intros actions Hall. unfold ManageAliases, json_Marshal.
    rewrite firstErr_all_None.
    + unfold mbind, M_bind. by rewrite doRequest_eq.
    + intros a Ha. simpl.
      assert (marshalMapErr (Add a) = None) as ->.
      { apply marshalMapErr_None. intros k v Hk. apply (Hall a k v Ha). by left. }
      assert (marshalMapErr (Remove a) = None) as ->.
      { apply marshalMapErr_None. intros k v Hk. apply (Hall a k v Ha). by right. }
      done.
Qed.

(** *** The shrink workflow as a whole *)

Lemma checkStatus_None what r :
  checkStatus what r = None ↔ ∃ resp, r = inr resp ∧ StatusCode resp < 400.
Proof.
  destruct r as [err|resp]; simpl.
  - split; [done|]. by intros (? & [=] & _).
  - destruct (400 <=? StatusCode resp) eqn:Hst.
    + split; [done|]. intros (? & [= <-] & ?). lia.
    + split; [|done]. intros _. exists resp. split; [done|lia].
Qed.

(** X5: [ShrinkIndex] returns nil exactly when the listing succeeds and
    matches the source, the merged settings encode, and the five requests
    that follow (close, shrink, open source, open target, settings update)
    are each answered with a status below 400, every one in the world its
    predecessor left. *)
Theorem shrink_succeeds_iff source target settings w :
  (ShrinkIndex lib net c source target settings w).1 = None ↔
  ∃ indices,
    ListIndices lib net c w = (inr indices, after net w (listRequest c))
    ∧ matched lib source indices ≠ []
    ∧ marshalMapErr (shrinkSettings settings) = None
    ∧ let w1 := after net w (listRequest c) in
      let closing := closeRequest c (matched lib source indices) in
      let w2 := after net w1 closing in
      let shrinking := shrinkRequest c source target settings in
      let w3 := after net w2 shrinking in
      let w4 := after net w3 (openRequest c source) in
      let w5 := after net w4 (openRequest c target) in
      answered net w1 closing
      ∧ answered net w2 shrinking
      ∧ answered net w3 (openRequest c source)
      ∧ answered net w4 (openRequest c target)
      ∧ answered net w5 (settingsRequest c target (finalSettings settings)).
Proof.
  rewrite ShrinkIndex_eq, CloseIndices_eq.
  destruct (ListIndices lib net c w) as [[err|indices] w1] eqn:Hlist;
    pose proof (ListIndices_world _ _ _ _ _ _ Hlist) as ->.
  { split; [done|]. by intros (idx & [=] & _). }
  destruct (matched lib source indices) as [|n names] eqn:Hm.
  { split; [done|]. intros (idx & [= <-] & Hne & _). by rewrite Hm in Hne. }
  cbv beta iota zeta.
  split.
  - intros Hrun. exists indices. rewrite Hm.
    destruct (checkStatus "failed to close indices" _) eqn:H1; [done|].
    destruct (marshalMapErr (shrinkSettings settings)) eqn:Henc; [done|].
    destruct (net _ (shrinkRequest c source target settings)).1
      as [e|resp] eqn:H2; [done|].
    destruct (400 <=? StatusCode resp) eqn:Hst; [done|].
    destruct (checkStatus _ (net _ (openRequest c source)).1) eqn:H3; [done|].
    destruct (checkStatus _ (net _ (openRequest c target)).1) eqn:H4; [done|].
    rewrite UpdateIndexSettings_eq, (finalSettings_encodes _ Henc) in Hrun.
    destruct (checkStatus _ (net _ (settingsRequest _ _ _)).1) eqn:H5; [done|].
    split_and!; [reflexivity|discriminate|reflexivity|..].
    + by apply checkStatus_None in H1.
    + exists resp. split; [done|lia].
    + by apply checkStatus_None in H3.
    + by apply checkStatus_None in H4.
    + by apply checkStatus_None in H5.
  - intros (idx & [= <-] & _ & Henc & Hrest). rewrite Hm in Hrest.
    destruct Hrest as (H1 & (resp & H2 & Hst) & H3 & H4 & H5).
    apply (checkStatus_None "failed to close indices") in H1.
    apply (checkStatus_None "failed to open index") in H3, H4.
    apply (checkStatus_None "failed to update settings") in H5.
    rewrite H1, Henc, H2, (proj2 (Z.leb_gt _ _) Hst), H3, H4.
    by rewrite UpdateIndexSettings_eq, (finalSettings_encodes _ Henc), H5.
Qed.

(** X6: [ShrinkIndex] never returns the error of a step as it is: whatever
    it returns starts with the message of the step that failed, one of
    seven. *)
Theorem shrink_errors_name_the_step source target settings w e w' :
  ShrinkIndex lib net c source target settings w = (Some e, w') →
  ∃ msg,
    e = "failed to close source index: " +:+ msg
    ∨ e = "failed to marshal shrink settings: " +:+ msg
    ∨ e = "failed to execute shrink request: " +:+ msg
    ∨ e = "shrink failed with status " +:+ msg
    ∨ e = "failed to reopen source index: " +:+ msg
    ∨ e = "failed to open target index: " +:+ msg
    ∨ e = "failed to apply final settings: " +:+ msg.
Proof.
  intros Hrun.
  destruct (CloseIndices lib net c source w) as [[err|] w1] eqn:Hclose.
  { rewrite ShrinkIndex_eq, Hclose in Hrun. injection Hrun as <- _. eauto. }
  destruct (ShrinkIndex_run _ _ _ _ _ _ _ _ _ _ Hclose Hrun) as (trace & Htrace & _).
  inversion Htrace; subst; eauto 10.
Qed.

(** An error with the prefix of another step. *)
Ltac another_step H := exfalso; cbn in H; discriminate H.

(** X7: the late steps of [ShrinkIndex].  When opening the target fails the
    source has been sent its open request and the target no settings; when
    the final settings fail, or the whole run succeeds, the six requests
    were sent, in order, and nothing after them. *)
Theorem shrink_late_steps source target settings w res w' :
  ShrinkIndex lib net c source target settings w = (res, w') →
  ((∃ err, res = Some ("failed to open target index: " +:+ err)) →
     ∃ names, names ≠ []
       ∧ log w' = (log w ++ [listRequest c; closeRequest c names;
                             shrinkRequest c source target settings;
                             openRequest c source; openRequest c target])%list)
  ∧ (res = None ∨ (∃ err, res = Some ("failed to apply final settings: " +:+ err)) →
     ∃ names, names ≠ []
       ∧ log w' = (log w ++ [listRequest c; closeRequest c names;
                             shrinkRequest c source target settings;
                             openRequest c source; openRequest c target;
                             settingsRequest c target (finalSettings settings)])%list).
Proof.
  intros Hrun.
  destruct (CloseIndices lib net c source w) as [[e|] w1] eqn:Hclose.
  - rewrite ShrinkIndex_eq, Hclose in Hrun. injection Hrun as <- <-.
    split; [intros [? Hres]|intros [Hres|[? Hres]]]; another_step Hres.
  - destruct (ShrinkIndex_run _ _ _ _ _ _ _ _ _ _ Hclose Hrun) as (trace & Htrace & ->).
    destruct (CloseIndices_log _ _ _ _ _ _ _ Hclose) as [[[? [=]] _]|(idx & _ & Hne & ->)].
    rewrite <- app_assoc. cbn [app].
    destruct Htrace as [err Herr| | | | | |];
      (split; [intros [? Hres]|intros [Hres|[? Hres]]]);
      try another_step Hres;
      exists (matched lib source idx); (split; [assumption|reflexivity]).
Qed.

(** *** The selection loops *)


Lemma elem_of_filter_fmap {A B} (p : A → bool) (f : A → B) (l : list A) (b : B) :
  b ∈ f <$> List.filter p l ↔ ∃ a, a ∈ l ∧ f a = b ∧ p a = true.
Proof.
  rewrite list_elem_of_fmap. split.
  - intros (a & -> & Ha). apply list_elem_of_In, filter_In in Ha as [Ha Hp].
    exists a. by rewrite list_elem_of_In.
  - intros (a & Ha & <- & Hp). exists a. split; [done|].
    apply list_elem_of_In, filter_In. by rewrite <- list_elem_of_In.
Qed.


(** X9: an index whose creation date does not parse is as old as can be.
    When its name carries the prefix and the cutoff is after the zero time,
    [CleanupByAge] names it in its delete request. *)
Theorem unparsed_creation_date_expires indexPrefix days w resp t records r :
  net w (listRequest c) = (inr resp, t) →
  json_Decode lib (Body resp) = inr records →
  r ∈ records →
  String.prefix indexPrefix (Cat.Index r) = true →
  is_Some (time_Parse lib (Cat.CreateTime r)).2 →
  zeroTime < AddDate_days lib (now w) (int_neg days) →
  ∃ names,
    Cat.Index r ∈ names
    ∧ log (CleanupByAge lib net c indexPrefix days w).2
      = (log w ++ [listRequest c; newRequest c "DELETE" ("/" +:+ Join names ",") None])%list.
Proof.
  intros Hnet Hdec Hr Hprefix Htime Hcut.
  rewrite CleanupByAge_eq, ListIndices_eq, Hnet. cbn [fst].
  rewrite decodeIndices_eq, Hdec.
  set (names := expired _ _ _).
  assert (Cat.Index r ∈ names) as Hin.
  { unfold names, expired. apply elem_of_filter_fmap.
    exists (toIndexInfo lib r). split_and!.
    - by apply list_elem_of_fmap_2.
    - done.
    - unfold HasPrefix, Before. cbn [Name CreateTime toIndexInfo].
      rewrite Hprefix, (time_Parse_zero lib _ Htime). simpl. by apply Z.ltb_lt. }
  exists names. split; [done|].
  destruct names as [|n names']; [by apply elem_of_nil in Hin|].
  simpl. by rewrite <- app_assoc.
Qed.

(** *** [Rollover] and [CleanupByAge], for their callers *)

Lemma Rollover_eq alias conditions w :
  Rollover net c alias conditions w
  = match marshalMapErr conditions with
    | Some err => (Some err, w)
    | None =>
        (checkStatus "failed to rollover index"
           (net w (rolloverRequest c alias conditions)).1,
         after net w (rolloverRequest c alias conditions))
    end.
Proof.
  unfold Rollover, json_Marshal.
  destruct (marshalMapErr conditions); [done|].
  unfold mbind, M_bind. by rewrite doRequest_eq.
Qed.

Lemma CleanupByAge_log indexPrefix days w e w1 :
  CleanupByAge lib net c indexPrefix days w = (e, w1) →
  ∃ reqs, cleanupLog c reqs ∧ log w1 = (log w ++ reqs)%list.
Proof.
  rewrite CleanupByAge_eq.
  destruct (ListIndices lib net c w) as [[err|indices] w0] eqn:Hlist;
    pose proof (ListIndices_world _ _ _ _ _ _ Hlist) as ->.
  - intros [= <- <-]. exists [listRequest c]. split; [by left|done].
  - destruct (expired _ _ indices) as [|n names] eqn:Hm.
    + intros [= <- <-]. exists [listRequest c]. split; [by left|done].
    + intros [= <- <-]. exists [listRequest c; deleteRequest c (n :: names)]. split.
      * right. by exists (n :: names).
      * simpl. by rewrite <- app_assoc.
Qed.

End More.

(** ** [mergeSettings], algebraically *)

(** X10: merging with an empty mapping on either side, or a mapping with
    itself, changes nothing; merging is associative; the keys of a merge are
    the keys of its two arguments. *)
Theorem mergeSettings_laws :
  (∀ m, mergeSettings m ∅ = m)
  ∧ (∀ m, mergeSettings ∅ m = m)
  ∧ (∀ m, mergeSettings m m = m)
  ∧ (∀ m1 m2 m3,
       mergeSettings (mergeSettings m1 m2) m3 = mergeSettings m1 (mergeSettings m2 m3))
  ∧ (∀ m1 m2, dom (mergeSettings m1 m2) = dom m1 ∪ dom m2).
Proof.
  split_and!; intros; rewrite !mergeSettings_union.
  - apply (left_id_L ∅ (∪)).
  - apply (right_id_L ∅ (∪)).
  - apply (idemp_L (∪)).
  - apply (assoc_L (∪)).
  - rewrite dom_union_L. apply (comm_L (∪)).
Qed.

(** ** The program *)

(** X11: [main] stops at the first operation that fails.  After a failed
    cleanup its requests are those of the cleanup alone; after a failed
    rollover, those of the cleanup and the rollover request; the shrink
    begins, with a new listing, only after the rollover succeeded; and the
    success line is printed only when the rollover request and the six
    requests of the shrink were all sent, in this order. *)
Theorem main_stops_at_the_first_failure lib net w out w' :
  Main.main lib net w = (out, w') →
  let client := NewClient "http://localhost:9200" "admin" "adminpassword" in
  let conditions : gmap string value :=
    {[ "max_age" := VString "7d"; "max_docs" := VInt 1000000 ]} in
  let settings : gmap string value :=
    {[ "number_of_shards" := VInt 1; "number_of_replicas" := VInt 1 ]} in
  let source := "logs-2023.10.01" in
  let target := "logs-2023.10.01-shrink" in
  ((∃ err, out = inl ("Failed to cleanup old indices: " +:+ err)) →
     ∃ cleanup, cleanupLog client cleanup ∧ log w' = (log w ++ cleanup)%list)
  ∧ ((∃ err, out = inl ("Failed to rollover index: " +:+ err)) →
     ∃ cleanup, cleanupLog client cleanup
       ∧ log w' = (log w ++ cleanup
                     ++ [rolloverRequest client "logs-current" conditions])%list)
  ∧ ((∃ err, out = inl ("Failed to shrink index: " +:+ err)) →
     ∃ cleanup rest, cleanupLog client cleanup
       ∧ log w' = (log w ++ cleanup
                     ++ rolloverRequest client "logs-current" conditions
                     :: listRequest client :: rest)%list)
  ∧ (∀ lines, out = inr lines →
     lines = ["Index shrunk successfully!"]
     ∧ ∃ cleanup names, cleanupLog client cleanup ∧ names ≠ []
         ∧ log w' = (log w ++ cleanup
                       ++ [rolloverRequest client "logs-current" conditions;
                           listRequest client; closeRequest client names;
                           shrinkRequest client source target settings;
                           openRequest client source; openRequest client target;
                           settingsRequest client target (finalSettings settings)])%list).
Proof.
  intros Hmain client conditions settings source target.
  unfold Main.main, Main.exemplo1, Main.exemplo2 in Hmain.
  fold client conditions settings source target in Hmain.
  unfold mbind, M_bind in Hmain.
  destruct (CleanupByAge lib net client "logs-" 30 w) as [[e|] w1] eqn:Hclean;
    destruct (CleanupByAge_log _ _ _ _ _ _ _ _ Hclean) as (cleanup & Hshape & Hlog1).
  { injection Hmain as <- <-.
    split_and!; try (intros [? Hout]; exfalso; cbn in Hout; discriminate Hout);
      [|intros ? [=]].
    intros _. by exists cleanup. }
  rewrite Rollover_eq in Hmain.
  replace (marshalMapErr conditions) with (@None error) in Hmain
    by (vm_compute; reflexivity).
  destruct (checkStatus "failed to rollover index" _) as [e|] eqn:Hroll.
  { injection Hmain as <- <-.
    split_and!; try (intros [? Hout]; exfalso; cbn in Hout; discriminate Hout);
      [|intros ? [=]].
    intros _. exists cleanup. split; [done|].
    simpl. by rewrite Hlog1, <- app_assoc. }
  set (w2 := after net w1 (rolloverRequest client "logs-current" conditions)) in Hmain.
  unfold mret, M_ret in Hmain. cbv beta iota in Hmain.
  assert (log w2 = (log w ++ cleanup
                      ++ [rolloverRequest client "logs-current" conditions])%list) as Hlog2.
  { unfold w2. simpl. by rewrite Hlog1, <- app_assoc. }
  destruct (ShrinkIndex lib net client source target settings w2) as [res w3] eqn:Hrun.
  destruct (CloseIndices lib net client source w2) as [[e|] wc] eqn:Hclose.
  - rewrite ShrinkIndex_eq, Hclose in Hrun. injection Hrun as <- <-.
    cbv beta iota in Hmain. injection Hmain as <- <-.
    split_and!; try (intros [? Hout]; exfalso; cbn in Hout; discriminate Hout);
      [|intros ? [=]].
    intros _. exists cleanup.
    destruct (CloseIndices_log _ _ _ _ _ _ _ Hclose) as [[_ ->]|(idx & _ & _ & ->)];
      rewrite Hlog2, <- !app_assoc; eexists; (split; [done|reflexivity]).
  - destruct (ShrinkIndex_run _ _ _ _ _ _ _ _ _ _ Hclose Hrun) as (trace & Htrace & Hlog3).
    destruct (CloseIndices_log _ _ _ _ _ _ _ Hclose) as [[[? [=]] _]|(idx & _ & Hne & Hlogc)].
    rewrite Hlogc, Hlog2 in Hlog3.
    destruct Htrace as [err Herr| | | | | |];
      cbv beta iota in Hmain; injection Hmain as <- <-;
      split_and!;
      try (intros [? Hout]; exfalso; cbn in Hout; discriminate Hout);
      try (intros ? Hout; discriminate Hout);
      first
        [ intros _; exists cleanup; eexists; (split; [assumption|]);
          rewrite Hlog3, <- !app_assoc; reflexivity
        | intros lines [= <-]; (split; [reflexivity|]);
          exists cleanup, (matched lib source idx); split_and!; [assumption..|];
          rewrite Hlog3, <- !app_assoc; reflexivity ].
Qed.

(** ** What is never deleted *)

Section Emits.

Variable lib : GoLib.
Variable net : Transport.
Variable c : Client.
Variable P : Request → Prop.

Lemma emits_ret {A} (a : A) : emits P (mret a).
Proof. intros w. exists []. simpl. by rewrite app_nil_r. Qed.

Lemma emits_bind {A B} (m : M A) (k : A → M B) :
  emits P m → (∀ a, emits P (k a)) → emits P (m ≫= k).
Proof.
  intros Hm Hk w. unfold mbind, M_bind.
  destruct (Hm w) as (r1 & E1 & F1).
  destruct (m w) as [a w1]. simpl in E1.
  destruct (Hk a w1) as (r2 & E2 & F2).
  exists (r1 ++ r2)%list. split; [by rewrite E2, E1, app_assoc|by apply Forall_app].
Qed.

Lemma emits_doRequest method path body :
  P (newRequest c method path body) → emits P (doRequest net c method path body).
Proof.
  intros HP w. rewrite doRequest_eq. eexists [_]. split; [done|]. by repeat constructor.
Qed.

End Emits.

(** One step of an operation that sends no DELETE. *)
Ltac harmless_step :=
  match goal with
  | |- emits _ (mret _) => apply emits_ret
  | |- emits _ (doRequest _ _ "GET" _ _) => apply emits_doRequest; left; reflexivity
  | |- emits _ (doRequest _ _ "POST" _ _) =>
      apply emits_doRequest; right; left; reflexivity
  | |- emits _ (doRequest _ _ "PUT" _ _) =>
      apply emits_doRequest; right; right; reflexivity
  | |- emits _ (_ ≫= _) => apply emits_bind; [|intros ?]
  | |- emits _ (match ?x with _ => _ end) => destruct x
  | |- emits _ (if ?x then _ else _) => destruct x
  end.

(** X13: only [DeleteIndices] and [CleanupByAge] can delete.  No request of
    [ListIndices], [CloseIndices], [OpenIndex], [UpdateIndexSettings],
    [ManageAliases], [Rollover], [Reindex] or [ShrinkIndex] has the method
    DELETE, whatever the cluster answers. *)
Theorem only_two_operations_delete (lib : GoLib) (net : Transport) (c : Client) :
  emits harmless (ListIndices lib net c)
  ∧ (∀ indexPattern, emits harmless (CloseIndices lib net c indexPattern))
  ∧ (∀ indexName, emits harmless (OpenIndex net c indexName))
  ∧ (∀ indexName settings, emits harmless (UpdateIndexSettings net c indexName settings))
  ∧ (∀ actions, emits harmless (ManageAliases net c actions))
  ∧ (∀ alias conditions, emits harmless (Rollover net c alias conditions))
  ∧ (∀ source dest query, emits harmless (Reindex net c source dest query))
  ∧ (∀ source target settings,
       emits harmless (ShrinkIndex lib net c source target settings)).
Proof.
  split_and!; intros;
    unfold ShrinkIndex, CloseIndices, ListIndices, OpenIndex, UpdateIndexSettings,
      ManageAliases, Rollover, Reindex;
    repeat harmless_step.
Qed.

(** ** The settings of the shrink request *)

(** X14: the settings of the shrink request encode exactly when the caller's
    values encode at every key other than the three overridden ones.  A value
    [json.Marshal] rejects is harmless under [index.blocks.write],
    [index.number_of_replicas] or [index.number_of_shards], where it is
    replaced, and stops the workflow under any other key,
    [number_of_shards] included. *)
Theorem shrink_settings_encode_iff (settings : gmap string value) :
  marshalMapErr (shrinkSettings settings) = None
  ↔ ∀ k v, settings !! k = Some v →
           k ≠ "index.blocks.write" → k ≠ "index.number_of_replicas" →
           k ≠ "index.number_of_shards" →
           marshalErr v = None.
Proof.
  rewrite marshalMapErr_None, shrinkSettings_eq. split.
  - intros H k v Hk ? ? ?. apply (H k). by rewrite !lookup_insert_ne.
  - intros H k v. rewrite !lookup_insert.
    repeat case_decide; intros Hv; simplify_eq; try reflexivity.
    + unfold index. destruct (settings !! "number_of_shards") as [v|] eqn:Hs;
        [|reflexivity].
      apply (H "number_of_shards" v Hs); intros [=].
    + by apply (H k).
Qed.

(** ** Document counts *)

Lemma pretty_N_char_code d : (d < 10)%N → Z.of_N (N_of_ascii (pretty_N_char d)) = 48 + Z.of_N d.
Proof.
  intros H.
  assert (d = 0 ∨ d = 1 ∨ d = 2 ∨ d = 3 ∨ d = 4 ∨ d = 5 ∨ d = 6 ∨ d = 7 ∨ d = 8 ∨ d = 9)%N
    as Hd by lia.
  repeat (destruct Hd as [->|Hd]; [reflexivity|]). by subst.
Qed.

Lemma loop_digit d cs n :
  (d < 10)%N → 0 ≤ n → n * 10 + Z.of_N d ≤ 2 ^ 64 - 1 →
  strconv.ParseUint_loop (pretty_N_char d :: cs) n
  = strconv.ParseUint_loop cs (n * 10 + Z.of_N d).
Proof.
  intros Hd Hn Hmax.
  cbn [strconv.ParseUint_loop]. rewrite (pretty_N_char_code d Hd).
  assert (((48 <=? 48 + Z.of_N d) && (48 + Z.of_N d <=? 57)) = true) as ->.
  { apply andb_true_intro. split; apply Z.leb_le; lia. }
  replace (48 + Z.of_N d - 48) with (Z.of_N d) by lia.
  assert ((10 <=? Z.of_N d) = false) as -> by (apply Z.leb_gt; lia).
  change (strconv.maxUint64 `div` 10 + 1) with 1844674407370955162.
  change (strconv.wrap64 (1 ≪ 64 - 1)) with 18446744073709551615.
  assert ((1844674407370955162 <=? n) = false) as -> by (apply Z.leb_gt; lia).
  rewrite (wrap64_small (n * 10)) by lia.
  rewrite (wrap64_small (n * 10 + Z.of_N d)) by lia.
  assert ((n * 10 + Z.of_N d <? n * 10) = false) as -> by (apply Z.ltb_ge; lia).
  assert ((18446744073709551615 <? n * 10 + Z.of_N d) = false) as ->
    by (apply Z.ltb_ge; lia).
  reflexivity.
Qed.

(** The digits of [x], read after [acc], continue with [s]. *)
Lemma loop_pretty x :
  ∃ m, 0 < m ∧ ∀ s acc,
    0 ≤ acc → acc * m + Z.of_N x ≤ 2 ^ 64 - 1 →
    strconv.ParseUint_loop (list_ascii_of_string (pretty_N_go x s)) acc
    = strconv.ParseUint_loop (list_ascii_of_string s) (acc * m + Z.of_N x).
Proof.
  induction (N.lt_wf_0 x) as [x _ IH].
  destruct (decide (x = 0)%N) as [->|Hx].
  { exists 1. split; [lia|]. intros s acc _ _. rewrite pretty_N_go_0. f_equal. lia. }
  destruct (IH (x `div` 10)%N) as (m & Hmpos & Hm); [apply N.div_lt; lia|].
  exists (m * 10). split; [lia|]. intros s acc Hacc Hmax.
  rewrite pretty_N_go_step by lia.
  assert (x = x `div` 10 * 10 + x `mod` 10)%N as Hdiv.
  { rewrite (N.div_mod x 10) at 1 by done. lia. }
  assert (x `mod` 10 < 10)%N as Hmod by (apply N.mod_lt; lia).
  revert Hm Hdiv Hmod.
  generalize (x `div` 10)%N (x `mod` 10)%N. intros q r Hm Hdiv Hmod.
  assert (0 ≤ acc * m) as Ht by nia.
  replace (acc * (m * 10)) with (acc * m * 10) in * by ring.
  rewrite Hm; [|done|lia].
  cbn [list_ascii_of_string]. rewrite loop_digit; [|done|lia|lia].
  f_equal. lia.
Qed.

Lemma pretty_N_go_head x s :
  (0 < x)%N → ∃ d rest, (d < 10)%N ∧ pretty_N_go x s = String (pretty_N_char d) rest.
Proof.
  revert s. induction (N.lt_wf_0 x) as [x _ IH]. intros s Hx.
  rewrite pretty_N_go_step by done.
  destruct (decide (x `div` 10 = 0)%N) as [->|Hq].
  - rewrite pretty_N_go_0. eexists _, _. split; [|done]. apply N.mod_lt. lia.
  - apply IH; [apply N.div_lt; lia|by apply N.neq_0_lt_0].
Qed.

Lemma digit_not_sign d :
  (d < 10)%N →
  Ascii.eqb (pretty_N_char d) "+" = false ∧ Ascii.eqb (pretty_N_char d) "-" = false.
Proof.
  intros H.
  assert (d = 0 ∨ d = 1 ∨ d = 2 ∨ d = 3 ∨ d = 4 ∨ d = 5 ∨ d = 6 ∨ d = 7 ∨ d = 8 ∨ d = 9)%N
    as Hd by lia.
  repeat (destruct Hd as [->|Hd]; [by split|]). by subst.
Qed.

Lemma ParseUint_pretty p :
  Z.pos p ≤ 2 ^ 64 - 1 →
  strconv.ParseUint (pretty_N_go (N.pos p) "") = (Z.pos p, None).
Proof.
  intros Hmax.
  destruct (pretty_N_go_head (N.pos p) "") as (d & rest & Hd & Hs); [lia|].
  unfold strconv.ParseUint. rewrite Hs. rewrite <- Hs.
  destruct (loop_pretty (N.pos p)) as (m & _ & Hm).
  rewrite Hm; [|lia|simpl; lia]. reflexivity.
Qed.

Lemma ParseInt_fmt_d n :
  - 2 ^ 63 ≤ n ≤ 2 ^ 63 - 1 → strconv.ParseInt (fmt_d n) = (n, None).
Proof.
  intros Hn. unfold fmt_d, pretty, pretty_Z.
  destruct n as [|p|p].
  - reflexivity.
  - unfold pretty, pretty_positive, pretty, pretty_N.
    destruct (decide (N.pos p = 0%N)) as [|_]; [done|].
    destruct (pretty_N_go_head (N.pos p) "") as (d & rest & Hd & Hs); [lia|].
    destruct (digit_not_sign d Hd) as [Hplus Hminus].
    unfold strconv.ParseInt. rewrite Hs, Hplus, Hminus, <- Hs.
    rewrite ParseUint_pretty by lia.
    change (1 ≪ 63) with (2 ^ 63).
    assert ((2 ^ 63 <=? Z.pos p) = false) as -> by (apply Z.leb_gt; lia).
    reflexivity.
  - unfold pretty, pretty_positive, pretty, pretty_N.
    destruct (decide (N.pos p = 0%N)) as [|_]; [done|].
    unfold strconv.ParseInt.
    change ("-" +:+ pretty_N_go (N.pos p) "")
      with (String "-" (pretty_N_go (N.pos p) "")).
    cbv beta iota.
    change (Ascii.eqb "-" "+") with false. change (Ascii.eqb "-" "-") with true.
    cbv beta iota.
    rewrite ParseUint_pretty by lia.
    change (1 ≪ 63) with (2 ^ 63).
    assert ((2 ^ 63 <? Z.pos p) = false) as -> by (apply Z.ltb_ge; lia).
    reflexivity.
Qed.

Lemma ParseUint_loop_nonneg cs n : 0 ≤ n → 0 ≤ (strconv.ParseUint_loop cs n).1.
Proof.
  revert n. induction cs as [|ch cs IH]; intros n Hn; [done|].
  cbn [strconv.ParseUint_loop].
  repeat case_match; try done; apply IH; unfold strconv.wrap64;
    apply Z.mod_pos_bound; lia.
Qed.

Lemma ParseUint_nonneg s : 0 ≤ (strconv.ParseUint s).1.
Proof.
  unfold strconv.ParseUint. destruct s; [done|]. by apply ParseUint_loop_nonneg.
Qed.

Lemma ParseInt_int64 s : - 2 ^ 63 ≤ (strconv.ParseInt s).1 ≤ 2 ^ 63 - 1.
Proof.
  unfold strconv.ParseInt. destruct s as [|c0 rest]; [done|].
  destruct (if Ascii.eqb c0 "+" then _ else _) as [neg s1].
  pose proof (ParseUint_nonneg s1) as Hun.
  destruct (strconv.ParseUint s1) as [un [[]|]]; [done| |];
    change (1 ≪ 63) with (2 ^ 63); simpl in Hun;
    destruct neg; simpl;
    repeat (case_match; simpl); try done; lia.
Qed.

(** X12: the document count of an index is read exactly.  Whatever the
    catalog says, [DocsCount] is an int64; and when the catalog gives the
    decimal text of an int64, [DocsCount] is that number. *)
Theorem docs_count_is_read_exactly (lib : GoLib) (r : Cat.record) :
  - 2 ^ 63 ≤ DocsCount (toIndexInfo lib r) ≤ 2 ^ 63 - 1
  ∧ ∀ n, - 2 ^ 63 ≤ n ≤ 2 ^ 63 - 1 →
         Cat.DocsCount r = fmt_d n →
         DocsCount (toIndexInfo lib r) = n.
Proof.
  split.
  - apply ParseInt_int64.
  - intros n Hn Hr. cbn [DocsCount toIndexInfo]. by rewrite Hr, ParseInt_fmt_d.
Qed.

(** ** On the reference runtime *)

Section MoreExamples.

Import Reference Scenario.

(** The connection is refused: every operation that lists returns just
    that. *)
Lemma listing_failure_witness :
  DeleteIndices lib down client "logs-*" w0
    = (Some "connection refused", after down w0 (listRequest client))
  ∧ CleanupByAge lib down client "logs-" 30 w0
    = (Some "connection refused", after down w0 (listRequest client))
  ∧ ShrinkIndex lib down client source target settings w0
    = (Some ("failed to close source index: " +:+ "connection refused"),
       after down w0 (listRequest client)).
Proof.
  pose proof (listing_failure_is_returned lib down client w0 "connection refused"
                (after down w0 (listRequest client)) eq_refl)
    as (_ & _ & Hdelete & _ & Hcleanup & Hshrink).
  split_and!; [apply Hdelete|apply Hcleanup|apply Hshrink].
Defined.

Lemma unencodable_value_witness :
  (∃ e, Rollover healthy client "logs-current" unencodable w0 = (Some e, w0))
  ∧ (∃ e, UpdateIndexSettings healthy client target unencodable w0 = (Some e, w0)).
Proof.
  pose proof (unencodable_value_sends_nothing healthy client w0 unencodable
                "max_docs" (VUnsupported "func() int") eq_refl)
    as (Hrollover & _ & Hupdate & _); [discriminate|].
  split; [apply Hrollover|apply Hupdate].
Defined.

Lemma encodable_document_witness :
  log (Rollover healthy client "logs-current" settings w0).2
  = (log w0 ++ [newRequest client "POST" ("/" +:+ "logs-current" +:+ "/_rollover")
                  (Some (BodyConditions settings))])%list.
Proof.
  apply (encodable_document_is_sent_once healthy client w0 settings).
  intros k v. unfold settings.
  rewrite lookup_insert. case_decide; [by intros [= <-]|].
  rewrite lookup_singleton. case_decide; [by intros [= <-]|done].
Defined.

Lemma shrink_errors_witness :
  ∃ msg,
    "failed to reopen source index: failed to open index: index_closed_exception"
      = "failed to close source index: " +:+ msg
    ∨ "failed to reopen source index: failed to open index: index_closed_exception"
      = "failed to marshal shrink settings: " +:+ msg
    ∨ "failed to reopen source index: failed to open index: index_closed_exception"
      = "failed to execute shrink request: " +:+ msg
    ∨ "failed to reopen source index: failed to open index: index_closed_exception"
      = "shrink failed with status " +:+ msg
    ∨ "failed to reopen source index: failed to open index: index_closed_exception"
      = "failed to reopen source index: " +:+ msg
    ∨ "failed to reopen source index: failed to open index: index_closed_exception"
      = "failed to open target index: " +:+ msg
    ∨ "failed to reopen source index: failed to open index: index_closed_exception"
      = "failed to apply final settings: " +:+ msg.
Proof.
  apply (shrink_errors_name_the_step lib reopenRefused client source target settings w0
           _ (ShrinkIndex lib reopenRefused client source target settings w0).2).
  vm_compute. reflexivity.
Defined.

Lemma shrink_late_steps_witness :
  let run := ShrinkIndex lib healthy client "logs-2023-01-01" target settings w0 in
  ∃ names, names ≠ []
    ∧ log run.2
      = (log w0 ++ [listRequest client; closeRequest client names;
                    shrinkRequest client "logs-2023-01-01" target settings;
                    openRequest client "logs-2023-01-01"; openRequest client target;
                    settingsRequest client target (finalSettings settings)])%list.
Proof.
  intros run.
  apply (proj2 (shrink_late_steps lib healthy client "logs-2023-01-01" target settings
                  w0 run.1 run.2 (surjective_pairing run))).
  left. vm_compute. reflexivity.
Defined.

(** The index [b] of the untidy catalog has no creation date: it is deleted,
    whatever its age. *)
Lemma unparsed_creation_date_witness :
  let net := scripted [ok (render untidy)] in
  ∃ names,
    "b" ∈ names
    ∧ log (CleanupByAge lib net client "b" 30 w0).2
      = (log w0 ++ [listRequest client;
                    newRequest client "DELETE" ("/" +:+ Join names ",") None])%list.
Proof.
  intros net.
  apply (unparsed_creation_date_expires lib net client "b" 30 w0
           {| StatusCode := 200; Body := render untidy |} (now w0) untidy
           {| Cat.Index := "b"; Cat.Status := "close"; Cat.DocsCount := "";
              Cat.StoreSize := ""; Cat.CreateTime := "" |}).
  - vm_compute. reflexivity.
  - vm_compute. reflexivity.
  - apply list_elem_of_further, list_elem_of_here.
  - reflexivity.
  - vm_compute. eexists. reflexivity.
  - vm_compute. reflexivity.
Defined.

Lemma main_witness :
  let run := Main.main lib obliging w0 in
  run.1 = inr ["Index shrunk successfully!"]
  ∧ ∃ cleanup names, cleanupLog client cleanup ∧ names ≠ []
      ∧ log run.2
        = (log w0 ++ cleanup
             ++ [rolloverRequest client "logs-current"
                   {[ "max_age" := VString "7d"; "max_docs" := VInt 1000000 ]};
                 listRequest client; closeRequest client names;
                 shrinkRequest client source target settings;
                 openRequest client source; openRequest client target;
                 settingsRequest client target (finalSettings settings)])%list.
Proof.
  intros run.
  assert (run.1 = inr ["Index shrunk successfully!"]) as Hout
    by (vm_compute; reflexivity).
  split; [exact Hout|].
  apply (proj2 (proj2 (proj2 (proj2
           (main_stops_at_the_first_failure lib obliging w0 run.1 run.2
              (surjective_pairing run)))) _ Hout)).
Defined.

(** The cluster answers 403 to the first request it gets. *)
Lemma documents_report_witness :
  let net := scripted [status 403 "forbidden"] in
  (OpenIndex net client source w0).1 = Some ("failed to open index: " +:+ "forbidden")
  ∧ (UpdateIndexSettings net client target settings w0).1
    = Some ("failed to update settings: " +:+ "forbidden").
Proof.
  intros net.
  pose proof (documents_report_the_body net client w0
                {| StatusCode := 403; Body := "forbidden" |})
    as (_ & _ & _ & Hupdate & Hopen); [simpl; lia|].
  split.
  - apply Hopen. vm_compute. reflexivity.
  - apply Hupdate; vm_compute; reflexivity.
Defined.

(** The cluster lists the source and answers 403 to the bulk request. *)
Lemma bulk_operations_report_witness :
  (DeleteIndices lib closeRefused client source w0).1
    = Some ("failed to delete indices: " +:+ "forbidden")
  ∧ (CloseIndices lib closeRefused client source w0).1
    = Some ("failed to close indices: " +:+ "forbidden").
Proof.
  pose proof (bulk_operations_report_the_body lib closeRefused client w0
                [toIndexInfo lib (entry source "2023-10-01T00:00:00Z")]
                (after closeRefused w0 (listRequest client))
                {| StatusCode := 403; Body := "forbidden" |} eq_refl)
    as (Hdelete & Hclose & _); [simpl; lia|].
  split.
  - apply Hdelete; [vm_compute; discriminate|vm_compute; reflexivity].
  - apply Hclose; [vm_compute; discriminate|vm_compute; reflexivity].
Defined.

End MoreExamples.
